(** * xstate-form: the form-model factory of [packages/xstate-form/src/index.ts]

    A shallow embedding of [createFormModel] and of the functions it closes
    over, followed by the properties the form model is specified to have.

    Modelling conventions.
    - A plain JavaScript object used as a dictionary is a finite map from
      property names to property values ([gmap string A]).  Only own,
      enumerable, string-keyed properties are modelled, which is all that
      [Object.keys], [Object.values] and object spread look at.  None of the
      properties below depends on the enumeration order of the keys.
    - A property that is present but holds [undefined] is different from an
      absent property: [Object.keys] lists the former.  The type
      [ErrorsFromValues] ([{ [K in keyof Values]?: string }]) allows such
      entries, so an errors object maps names to [option string].
    - An object literal, computed keys and spread included, defines own
      properties under any name.  An assignment [map[key] = false] does so
      too, but for the name [__proto__]: there it calls the setter that
      [Object.prototype] has for this name, which ignores a value that is no
      object and defines no property.
    - Reading [context[key]] is modelled for the own properties of the
      context.  For a [key] that names a property of [Object.prototype] and
      a context without an own property of this name, the source reads the
      inherited value; nothing below is stated about that case.
    - A validator is a function of the mapping it is given.  Where two runs
      could hand the validator objects with the same properties in a
      different order, the properties below say so.
    - A call that can return [undefined] (the validator, whose result type
      is [ErrorsFromValues<Values> | void]) returns an [option]; reading a
      property of [undefined] throws a [TypeError], which is [None] here.
    - The source never updates an object after it has built it, so objects
      are values.  The one place where identity of an object is of interest
      (the initial state keeps the caller's [initialValues] object) is
      modelled a second time over an explicit store of objects. *)

From stdpp Require Import base option list strings gmap fin_maps.

(** ** JavaScript primitives used by the source *)

Section js.
Context {A : Type}.

(** [Object.keys(o)] *)
Definition Object_keys (o : gmap string A) : list string :=
  (map_to_list o).*1.

(** [Object.values(o)] *)
Definition Object_values (o : gmap string A) : list A :=
  (map_to_list o).*2.

(** [{ ...target, ...source }]: the properties of [source] are written
    after those of [target] and win on collision. *)
Definition spread (target source : gmap string A) : gmap string A :=
  source ∪ target.

(** [arr.some(p)] *)
Definition some (p : A → bool) (arr : list A) : bool := existsb p arr.

(** [a || b] where [a] is an object or [undefined] *)
Definition or_else (a : option A) (b : A) : A :=
  match a with
  | Some x => x
  | None => b
  end.

End js.

(** [Boolean(b)] on a boolean *)
Definition Boolean (b : bool) : bool := b.

(** ** Types of the form model *)

(** [Values]: field name to field value; one value type [V] for all fields. *)
Abbreviation Values V := (gmap string V).

(** [ErrorsFromValues<Values>]: [{ [K in keyof Values]?: string }] *)
Abbreviation ErrorsFromValues := (gmap string (option string)).

(** [BooleanMap<Values>] *)
Abbreviation BooleanMap := (gmap string bool).

(** [ValidateFunction<Values>]: [(value: Values) => ErrorsFromValues | void] *)
Abbreviation ValidateFunction V := (Values V → option ErrorsFromValues).

(** [FormModelParams<Values>] *)
Record FormModelParams (V : Type) := {
  initialValues : Values V;
  validate : option (ValidateFunction V)
}.
Arguments initialValues {V} _.
Arguments validate {V} _.

(** [InitialState<Values>] *)
Record InitialState (V : Type) := {
  errors : ErrorsFromValues;
  touched : BooleanMap;
  values : Values V
}.
Arguments Build_InitialState {V} _ _ _.
Arguments errors {V} _.
Arguments touched {V} _.
Arguments values {V} _.

(** [FormContext<Key, Values>]: the host context.  The constraint
    [TContext extends FormContext<Key, Values>] gives [context[key]] the
    type [InitialState<Values>]; the other properties of the host context
    that are modelled are the slices of other form models. *)
Abbreviation FormContext V := (gmap string (InitialState V)).

(** The event objects: the shapes returned by the four event constructors
    ([FormEvents<Key, Values>]) and any other event of the host machine,
    of which only the [type] is looked at. *)
Inductive Event (V : Type) :=
  | NameValueEvent (type name : string) (value : V)
  | NameEvent (type name : string)
  | ValuesEvent (type : string) (values : Values V)
  | OtherEvent (type : string).
Arguments NameValueEvent {V} _ _ _.
Arguments NameEvent {V} _ _.
Arguments ValuesEvent {V} _ _.
Arguments OtherEvent {V} _.

(** [event.type] *)
Definition event_type {V} (event : Event V) : string :=
  match event with
  | NameValueEvent type _ _ | NameEvent type _
  | ValuesEvent type _ | OtherEvent type => type
  end.

(** [event.name], for the events that carry one *)
Definition event_name {V} (event : Event V) : option string :=
  match event with
  | NameValueEvent _ name _ | NameEvent _ name => Some name
  | ValuesEvent _ _ | OtherEvent _ => None
  end.

(** [event.value], for the events that carry one *)
Definition event_value {V} (event : Event V) : option V :=
  match event with
  | NameValueEvent _ _ value => Some value
  | NameEvent _ _ | ValuesEvent _ _ | OtherEvent _ => None
  end.

(** [FormModelEvents<Key, Values>] *)
Record FormModelEvents (V : Type) := {
  change : string → V → Event V;
  blur : string → V → Event V;
  focus : string → Event V;
  submit : Values V → Event V
}.
Arguments change {V} _ _ _.
Arguments blur {V} _ _ _.
Arguments focus {V} _ _.
Arguments submit {V} _ _.

(** ** What the source imports from the host library

    [import { AssignAction, EventObject, StateNodeConfig, assign } from 'xstate'].
    These are the shapes of the configuration values the form model hands
    to the host machine. *)

Module xstate.

(** [AssignAction<TContext, TEvent>]: the action object that
    [assign(assignment)] builds around its callback.  Every call of [assign]
    builds an object of its own: two action objects are different objects
    also when their callbacks do the same.  [identity] tells the objects
    apart; it is the name of the constant that the call of [assign]
    initialises.  The callback returns a partial context; it is [None] where
    the callback would read a property of [undefined] and for an event that
    lacks a property the callback reads. *)
Record AssignAction (V : Type) := assign {
  identity : string;
  assignment : FormContext V → Event V → option (FormContext V)
}.
Arguments assign {V} _ _.
Arguments identity {V} _.
Arguments assignment {V} _ _ _.

(** An entry of a transition's [actions]: an assign action, or a function
    of the caller that is run for its effect (named, so that runs can be
    told apart). *)
Inductive Action (V : Type) :=
  | AssignAct (a : AssignAction V)
  | FunctionAct (name : string).
Arguments AssignAct {V} _.
Arguments FunctionAct {V} _.

(** A transition configuration [{ actions: [...] }] *)
Record TransitionConfig (V : Type) := {
  actions : list (Action V)
}.
Arguments Build_TransitionConfig {V} _.
Arguments actions {V} _.

(** [StateNodeConfig]: its [on] property, which may be missing, and the
    rest of its properties, left abstract. *)
Record StateNodeConfig (V Rest : Type) := {
  on : option (gmap string (TransitionConfig V));
  rest : Rest
}.
Arguments Build_StateNodeConfig {V Rest} _ _.
Arguments on {V Rest} _.
Arguments rest {V Rest} _.

End xstate.

Abbreviation AssignAction := xstate.AssignAction.
Abbreviation StateNodeConfig := xstate.StateNodeConfig.
Abbreviation assign := xstate.assign.

(** [FormModelActions<Key, Values>] *)
Record FormModelActions (V : Type) := {
  assignChangeToState : AssignAction V;
  assignBlurToState : AssignAction V;
  assignFocusToState : AssignAction V
}.
Arguments assignChangeToState {V} _.
Arguments assignBlurToState {V} _.
Arguments assignFocusToState {V} _.

(** [FormModelSelectors<Key, Values>] *)
Record FormModelSelectors (V : Type) := {
  getIsValid : FormContext V → option bool;
  getIsDirty : FormContext V → option bool;
  getIsPristine : FormContext V → option bool
}.
Arguments getIsValid {V} _ _.
Arguments getIsDirty {V} _ _.
Arguments getIsPristine {V} _ _.

(** [FormModel<Key, Values>]; [createState] is generic in the host's types. *)
Record FormModel (V : Type) := {
  key : string;
  initialContext : InitialState V;
  events : FormModelEvents V;
  createState : ∀ Rest : Type, StateNodeConfig V Rest → StateNodeConfig V Rest;
  selectors : FormModelSelectors V
}.
Arguments key {V} _.
Arguments initialContext {V} _.
Arguments events {V} _.
Arguments createState {V} _ {Rest} _.
Arguments selectors {V} _.

(** ** The functions of the source *)

(** [map[key] = value] for a [value] that is no object: an assignment, which
    defines the property [key], except that for [__proto__] it runs the
    setter of [Object.prototype] and leaves [map] as it is. *)
Definition assign_property {A} (map : gmap string A) (key : string) (value : A)
  : gmap string A :=
  if bool_decide (key = "__proto__") then map else <[key := value]> map.

(** [toInitialBooleanMap]: [forEach] over [Object.keys(values)], writing
    [map[key] = false] into a map that starts empty. *)
Definition toInitialBooleanMap {V} (values : Values V) : BooleanMap :=
  foldl (λ map key, assign_property map key false) ∅ (Object_keys values).

(** [config.validate?.(v) || {}], as written in [makeInitialStateFromConfig]
    and in both assignments. *)
Definition validate_or_empty {V} (config : FormModelParams V) (v : Values V)
  : ErrorsFromValues :=
  or_else (validate config ≫= λ f, f v) ∅.

(** [makeInitialStateFromConfig] *)
Definition makeInitialStateFromConfig {V} (config : FormModelParams V)
  : InitialState V :=
  {| values := initialValues config;
     errors := validate_or_empty config (initialValues config);
     touched := toInitialBooleanMap (initialValues config) |}.

(** The [actions] constant of [createFormModel]; it closes over [key] and
    [config].  [{ ...context[key], values: newValues, errors: ... }] keeps
    [touched], and [{ ...context[key], touched: ... }] keeps [values] and
    [errors]. *)
Definition actions {V} (key : string) (config : FormModelParams V)
  : FormModelActions V :=
  {| assignChangeToState := assign "assignChangeToState" (λ context event,
       previous ← context !! key;
       name ← event_name event;
       value ← event_value event;
       let newValues := <[name := value]> (values previous) in
       Some {[ key := {| values := newValues;
                         errors := validate_or_empty config newValues;
                         touched := touched previous |} ]});
     assignBlurToState := assign "assignBlurToState" (λ context event,
       previous ← context !! key;
       name ← event_name event;
       value ← event_value event;
       let newValues := <[name := value]> (values previous) in
       Some {[ key := {| values := newValues;
                         errors := validate_or_empty config newValues;
                         touched := touched previous |} ]});
     assignFocusToState := assign "assignFocusToState" (λ context event,
       previous ← context !! key;
       name ← event_name event;
       Some {[ key := {| values := values previous;
                         errors := errors previous;
                         touched := <[name := true]> (touched previous) |} ]})
  |}.

(** [createFormModel] *)
Definition createFormModel {V} (key : string) (config : FormModelParams V)
  : FormModel V :=
  let events : FormModelEvents V :=
    {| change := λ name value, NameValueEvent (key +:+ ".CHANGE") name value;
       blur := λ name value, NameValueEvent (key +:+ ".BLUR") name value;
       focus := λ name, NameEvent (key +:+ ".FOCUS") name;
       submit := λ values, ValuesEvent (key +:+ ".SUBMIT") values |} in
  let actions := actions key config in
  let createState := λ Rest (config : StateNodeConfig V Rest),
    {| xstate.rest := xstate.rest config;
       xstate.on := Some (spread
         (<[key +:+ ".FOCUS" :=
              {| xstate.actions := [xstate.AssignAct (assignFocusToState actions)] |}]>
         (<[key +:+ ".BLUR" :=
              {| xstate.actions := [xstate.AssignAct (assignBlurToState actions)] |}]>
         (<[key +:+ ".CHANGE" :=
              {| xstate.actions := [xstate.AssignAct (assignChangeToState actions)] |}]>
          ∅)))
         (or_else (xstate.on config) ∅)) |} in
  let initialContext := makeInitialStateFromConfig config in
  let getIsDirty := λ context : FormContext V,
    state ← context !! key;
    Some (some Boolean (Object_values (touched state))) in
  let selectors : FormModelSelectors V :=
    {| getIsValid := λ context,
         state ← context !! key;
         Some (bool_decide (length (Object_keys (errors state)) = 0));
       getIsDirty := getIsDirty;
       getIsPristine := λ context, negb <$> getIsDirty context |} in
  {| key := key;
     initialContext := initialContext;
     events := events;
     createState := createState;
     selectors := selectors |}.

(** ** The form state along a run of the behaviours

    The slice under [key] after any number of applications of assign
    actions.  One application takes any host context that holds the current
    slice under [key], runs the callback of an action on an event, and
    continues with the slice the callback returned under [key].  [allowed]
    says which actions are applied to which events. *)
Inductive reachable {V} (key : string) (config : FormModelParams V)
    (allowed : AssignAction V → Event V → Prop) : InitialState V → Prop :=
  | reachable_initial :
      reachable key config allowed (initialContext (createFormModel key config))
  | reachable_apply state context a event partial state' :
      reachable key config allowed state →
      context !! key = Some state →
      allowed a event →
      xstate.assignment a context event = Some partial →
      partial !! key = Some state' →
      reachable key config allowed state'.

(** The two behaviours that write a value: CHANGE and BLUR. *)
Definition writes_value {V} (key : string) (config : FormModelParams V)
    (a : AssignAction V) : Prop :=
  a = assignChangeToState (actions key config) ∨
  a = assignBlurToState (actions key config).

(** Any of the three behaviours, applied to any event. *)
Definition any_behaviour {V} (key : string) (config : FormModelParams V)
    (a : AssignAction V) (event : Event V) : Prop :=
  a = assignChangeToState (actions key config) ∨
  a = assignBlurToState (actions key config) ∨
  a = assignFocusToState (actions key config).

(** The handler that the state configuration [node] has for an event
    type: the entry of its [on], if it has an [on] and the [on] has the
    entry. *)
Definition handler_of {V Rest} (node : StateNodeConfig V Rest) (type : string)
    : option (xstate.TransitionConfig V) :=
  match xstate.on node with
  | Some handlers => handlers !! type
  | None => None
  end.

(** [a] is among the actions that the state configuration [node] registers
    for the type of [event]. *)
Definition handles {V Rest} (node : StateNodeConfig V Rest)
    (a : AssignAction V) (event : Event V) : Prop :=
  ∃ transition,
    handler_of node (event_type event) = Some transition ∧
    xstate.AssignAct a ∈ xstate.actions transition.

(** [event] was built by [events.change], [events.blur] or [events.focus]
    of the model for a field that [initialValues] declares. *)
Definition own_event {V} (key : string) (config : FormModelParams V)
    (event : Event V) : Prop :=
  ∃ name, name ∈ dom (initialValues config) ∧
    ((∃ value, event = change (events (createFormModel key config)) name value) ∨
     (∃ value, event = blur (events (createFormModel key config)) name value) ∨
     event = focus (events (createFormModel key config)) name).

(** The events of the model's own constructors, each handled by the action
    that [createState] registers for it when the caller's configuration has
    no [on] of its own ([model.createState({})]). *)
Definition own_dispatch {V} (key : string) (config : FormModelParams V)
    (a : AssignAction V) (event : Event V) : Prop :=
  own_event key config event ∧
  handles (createState (createFormModel key config)
             {| xstate.on := None; xstate.rest := tt |}) a event.

(** ** The host machine *)

(** Modelled from the spec: the host machine runtime (the execution of an
    assign action and the dispatch of an event to the handlers of a state
    configuration), whose code is not among the source files.  The spec,
    section 6, has the host "dispatch typed events to registered handlers by
    exact string tag match" and "apply a handler's declared
    state-transformation function to produce the next context, replacing
    (not deep-merging) the targeted sub-object", where "context replacement
    preserves untouched sibling keys". *)
Definition applyAssign {V} (a : AssignAction V) (context : FormContext V)
    (event : Event V) : option (FormContext V) :=
  partial ← xstate.assignment a context event;
  Some (spread context partial).

(** Modelled from the spec: running one action of a handler.  An assign
    action yields the next context; a function of the caller runs for its
    effect, which is recorded in a log of the functions called, and leaves
    the context as it is. *)
Definition execute {V} (event : Event V)
    (state : option (FormContext V * list string)) (a : xstate.Action V)
    : option (FormContext V * list string) :=
  '(context, called) ← state;
  match a with
  | xstate.AssignAct a =>
      context' ← applyAssign a context event;
      Some (context', called)
  | xstate.FunctionAct name => Some (context, called ++ [name])
  end.

(** Modelled from the spec: sending an event to a machine that is in the
    state configured by [node].  The handler registered under exactly the
    event's type runs its actions in order; without one the event is
    dropped. *)
Definition send {V Rest} (node : StateNodeConfig V Rest)
    (context : FormContext V) (event : Event V)
    : option (FormContext V * list string) :=
  match handler_of node (event_type event) with
  | Some transition =>
      foldl (execute event) (Some (context, [])) (xstate.actions transition)
  | None => Some (context, [])
  end.

(** ** The initial state over a store of objects

    [makeInitialStateFromConfig] once more, with the values objects kept in
    a store and named by references, to tell the caller's object from a
    copy of it. *)

Abbreviation reference := positive.
Abbreviation Store V := (gmap reference (Values V)).

Record FormModelParamsRef (V : Type) := {
  initialValues_ref : reference;
  validate_ref : option (ValidateFunction V)
}.
Arguments initialValues_ref {V} _.
Arguments validate_ref {V} _.

Record InitialStateRef (V : Type) := {
  errors_ref : ErrorsFromValues;
  touched_ref : BooleanMap;
  values_ref : reference
}.
Arguments errors_ref {V} _.
Arguments touched_ref {V} _.
Arguments values_ref {V} _.

(** The function returns the state and the store it leaves behind.  It is
    [None] when [config.initialValues] names no object. *)
Definition makeInitialStateFromConfig_ref {V} (store : Store V)
    (config : FormModelParamsRef V) : option (InitialStateRef V * Store V) :=
  initialValues ← store !! initialValues_ref config;
  Some ({| values_ref := initialValues_ref config;
           errors_ref := or_else (validate_ref config ≫= λ f, f initialValues) ∅;
           touched_ref := toInitialBooleanMap initialValues |},
        store).

(** The state with its values object read from the store. *)
Definition read_state {V} (store : Store V) (state : InitialStateRef V)
    : option (InitialState V) :=
  values ← store !! values_ref state;
  Some {| values := values;
          errors := errors_ref state;
          touched := touched_ref state |}.

(** ** The login form of the test suite *)

(** [!s] for a property that holds a string or is missing *)
Definition falsy (s : option string) : bool :=
  match s with
  | Some s => bool_decide (s = "")
  | None => true
  end.

(** The validator of [createFormModel('loginForm', ...)] in the tests: it
    returns nothing when both fields are filled in. *)
Definition loginValidate (values : Values string) : option ErrorsFromValues :=
  if falsy (values !! "username")
  then Some {[ "username" := Some "You must provide a username" ]}
  else if falsy (values !! "password")
  then Some {[ "password" := Some "You must provide a password" ]}
  else None.

Definition loginConfig : FormModelParams string :=
  {| initialValues := {[ "username" := ""; "password" := "" ]};
     validate := Some loginValidate |}.

Definition loginForm : FormModel string :=
  createFormModel "loginForm" loginConfig.

(** The same form without a validator, as in the override and focus tests. *)
Definition plainConfig : FormModelParams string :=
  {| initialValues := {[ "username" := ""; "password" := "" ]};
     validate := None |}.

Definition plainForm : FormModel string :=
  createFormModel "loginForm" plainConfig.

(** The login form once the user name is filled in. *)
Definition loginForm_named : InitialState string :=
  {| values := {[ "username" := "something"; "password" := "" ]};
     errors := {[ "password" := Some "You must provide a password" ]};
     touched := {[ "username" := false; "password" := false ]} |}.

(** The login form without a validator, once the user name had the focus. *)
Definition plainForm_focused : InitialState string :=
  {| values := {[ "username" := ""; "password" := "" ]};
     errors := ∅;
     touched := {[ "username" := true; "password" := false ]} |}.

(** The same form once the focused user name is filled in. *)
Definition plainForm_focused_named : InitialState string :=
  {| values := {[ "username" := "bob"; "password" := "" ]};
     errors := ∅;
     touched := {[ "username" := true; "password" := false ]} |}.

(** A form whose [initialValues] has an own property [__proto__], as
    [JSON.parse('{"__proto__": "", "username": ""}')] builds it. *)
Definition protoConfig : FormModelParams string :=
  {| initialValues := {[ "__proto__" := ""; "username" := "" ]};
     validate := None |}.

Definition protoForm : FormModel string :=
  createFormModel "form" protoConfig.

(** The form [protoForm] once the field [__proto__] had the focus. *)
Definition protoForm_focused : InitialState string :=
  {| values := {[ "__proto__" := ""; "username" := "" ]};
     errors := ∅;
     touched := {[ "__proto__" := true; "username" := false ]} |}.

(** An assign action of a caller that overrides ['loginForm.CHANGE']:
    [assign((context) => ({ loginForm: { ...context.loginForm, values:
    { ...context.loginForm.values, username: 'reset' } } }))]. *)
Definition resetUsername : AssignAction string :=
  assign "resetUsername" (λ context event,
    previous ← context !! "loginForm";
    Some {[ "loginForm" :=
              {| values := <["username" := "reset"]> (values previous);
                 errors := errors previous;
                 touched := touched previous |} ]}).

(** A validator that reports every field, with [undefined] for the fields
    that are fine: [values => ({ username: values.username ? undefined :
    'Required' })].  Its result type is [ErrorsFromValues<Values>]. *)
Definition requiredUsername (values : Values string) : option ErrorsFromValues :=
  Some {[ "username" :=
            if falsy (values !! "username") then Some "Required" else None ]}.

Definition requiredConfig : FormModelParams string :=
  {| initialValues := {[ "username" := "bob" ]};
     validate := Some requiredUsername |}.

Definition requiredForm : FormModel string :=
  createFormModel "signup" requiredConfig.

(** ** Notions for the further properties *)

(** [event] was built by one of the four constructors in [events] of the
    model. *)
Definition built_by {V} (model : FormModel V) (event : Event V) : Prop :=
  (∃ name value, event = change (events model) name value) ∨
  (∃ name value, event = blur (events model) name value) ∨
  (∃ name, event = focus (events model) name) ∨
  (∃ values, event = submit (events model) values).

(** The slice under [key] after one run of the callback of [a], in the
    context that holds [state] under [key] and nothing else. *)
Definition behave {V} (key : string) (a : AssignAction V)
    (state : InitialState V) (event : Event V) : option (InitialState V) :=
  partial ← xstate.assignment a {[ key := state ]} event;
  partial !! key.

(** [evolves key config state state']: some sequence of applications of
    the three behaviours, to any events, leads from the slice [state] to
    the slice [state'].  One application is as in [reachable]. *)
Inductive evolves {V} (key : string) (config : FormModelParams V)
    : InitialState V → InitialState V → Prop :=
  | evolves_refl state : evolves key config state state
  | evolves_apply state state' context a event partial state'' :
      evolves key config state state' →
      context !! key = Some state' →
      any_behaviour key config a event →
      xstate.assignment a context event = Some partial →
      partial !! key = Some state'' →
      evolves key config state state''.

(** * Properties *)

(** ** The JavaScript primitives *)

Section js_facts.
Context {A : Type}.
Implicit Types (o : gmap string A) (name : string).

Lemma elem_of_Object_keys o name :
  name ∈ Object_keys o ↔ is_Some (o !! name).
Proof.
  unfold Object_keys. rewrite list_elem_of_fmap. split.
  - intros [[k x] [-> Hin]]. apply elem_of_map_to_list in Hin. by exists x.
  - intros [x Hx]. exists (name, x). split; [done|].
    by apply elem_of_map_to_list.
Qed.

Lemma length_Object_keys o : length (Object_keys o) = size o.
Proof. unfold Object_keys. by rewrite length_fmap, length_map_to_list. Qed.

Lemma no_Object_keys o : length (Object_keys o) = 0 ↔ o = ∅.
Proof. rewrite length_Object_keys. apply map_size_empty_iff. Qed.

Lemma elem_of_Object_values o (x : A) :
  x ∈ Object_values o ↔ ∃ name, o !! name = Some x.
Proof.
  unfold Object_values. rewrite list_elem_of_fmap. split.
  - intros [[k y] [-> Hin]]. apply elem_of_map_to_list in Hin. by exists k.
  - intros [k Hk]. exists (k, x). split; [done|].
    by apply elem_of_map_to_list.
Qed.

Lemma lookup_spread (target source : gmap string A) name :
  spread target source !! name =
    match source !! name with
    | Some x => Some x
    | None => target !! name
    end.
Proof.
  unfold spread. rewrite lookup_union.
  destruct (source !! name), (target !! name); done.
Qed.

End js_facts.

Lemma some_Boolean (l : list bool) : some Boolean l = true ↔ true ∈ l.
Proof.
  unfold some, Boolean. rewrite existsb_exists. split.
  - intros [b [Hin ->]]. by apply list_elem_of_In.
  - intros Hin. exists true. split; [by apply list_elem_of_In|done].
Qed.

(** ** [toInitialBooleanMap] *)

Section initial_map.
Context {V : Type}.

(** The loop of [toInitialBooleanMap], from any map it may have built so
    far: the assignments reach every key but [__proto__]. *)
Lemma lookup_forEach_false (keys : list string) (map : BooleanMap) name :
  foldl (λ map key, assign_property map key false) map keys !! name =
    if decide (name ∈ keys ∧ name ≠ "__proto__") then Some false
    else map !! name.
Proof.
  revert map. induction keys as [|key keys IH]; intros map.
  - rewrite decide_False; [done|]. intros [Hin _]. by apply elem_of_nil in Hin.
  - cbn [foldl]. rewrite IH.
    destruct (decide (name ∈ keys ∧ name ≠ "__proto__")) as [[Hin Hne]|Hnot].
    + rewrite decide_True; [done|]. split; [|done]. by apply elem_of_cons; right.
    + unfold assign_property.
      destruct (decide (name ∈ key :: keys ∧ name ≠ "__proto__"))
        as [[Hin Hne]|Hnot'].
      * apply elem_of_cons in Hin as [->|Hin]; [|by destruct Hnot].
        rewrite bool_decide_eq_false_2 by done. apply lookup_insert_eq.
      * case_bool_decide as Hkey; [done|].
        destruct (decide (name = key)) as [->|Hne'].
        { destruct Hnot'. split; [apply list_elem_of_here|done]. }
        by rewrite lookup_insert_ne.
Qed.

Lemma lookup_toInitialBooleanMap (values : Values V) name :
  toInitialBooleanMap values !! name =
    if decide (name = "__proto__") then None
    else (λ _, false) <$> values !! name.
Proof.
  unfold toInitialBooleanMap. rewrite lookup_forEach_false, lookup_empty.
  destruct (decide (name = "__proto__")) as [->|Hne].
  - rewrite decide_False; [done|]. by intros [_ ?].
  - case_decide as Hin.
    + destruct Hin as [Hin _]. by apply elem_of_Object_keys in Hin as [x ->].
    + destruct (values !! name) as [x|] eqn:Hx; [|done].
      destruct Hin. split; [|done]. apply elem_of_Object_keys. by exists x.
Qed.

(** Every entry of the map is [false]. *)
Lemma toInitialBooleanMap_false (values : Values V) name (b : bool) :
  toInitialBooleanMap values !! name = Some b → b = false.
Proof.
  rewrite lookup_toInitialBooleanMap. case_decide; [done|].
  destruct (values !! name); [|done]. by intros [= <-].
Qed.

Lemma dom_toInitialBooleanMap (values : Values V) :
  dom (toInitialBooleanMap values) = dom values ∖ {[ "__proto__" ]}.
Proof.
  apply set_eq. intros name.
  rewrite elem_of_difference, !elem_of_dom, not_elem_of_singleton.
  rewrite lookup_toInitialBooleanMap. case_decide as Hname.
  - split; [by intros [? ?]|]. by intros [_ ?].
  - rewrite fmap_is_Some. split; [done|]. by intros [? _].
Qed.

End initial_map.

(** ** Initial state *)

(** C2, at an [initialValues] with an own property [__proto__].  The state
    keeps [initialValues] as [values], field [__proto__] included, and
    [errors] is empty, but [touched] has an entry for [username] only: the
    key [__proto__] of [initialValues] is not mapped to [false]. *)
Theorem makeInitialStateFromConfig_proto :
  values (makeInitialStateFromConfig protoConfig)
    = {[ "__proto__" := ""; "username" := "" ]} ∧
  errors (makeInitialStateFromConfig protoConfig) = ∅ ∧
  touched (makeInitialStateFromConfig protoConfig) = {[ "username" := false ]} ∧
  initialValues protoConfig !! "__proto__" = Some "" ∧
  touched (makeInitialStateFromConfig protoConfig) !! "__proto__" = None.
Proof. repeat split; reflexivity. Qed.

(** X21.  [makeInitialStateFromConfig({ initialValues, validate? })] returns
    a state whose [values] is [initialValues], whose [errors] is
    [validate(initialValues)] when a validator is supplied (the empty
    mapping when the validator returns nothing) and the empty mapping
    otherwise, and whose [touched] maps the keys of [initialValues] other
    than [__proto__] to [false] and has no other entry.  Run over a store in
    which the reference [r] names the [initialValues] object, the function
    returns [r] itself as [values], leaves the store as it found it, and the
    state it returns reads as the state above. *)
Theorem makeInitialStateFromConfig_fields {V} (store : Store V) (r : reference)
    (config : FormModelParams V) :
  store !! r = Some (initialValues config) →
  let state := makeInitialStateFromConfig config in
  (values state = initialValues config ∧
   errors state =
     match validate config with
     | Some validate =>
         match validate (initialValues config) with
         | Some errors => errors
         | None => ∅
         end
     | None => ∅
     end ∧
   ∀ name, touched state !! name =
     if decide (name = "__proto__") then None
     else match initialValues config !! name with
          | Some _ => Some false
          | None => None
          end) ∧
  ∃ state_ref,
    makeInitialStateFromConfig_ref store
      {| initialValues_ref := r; validate_ref := validate config |}
      = Some (state_ref, store) ∧
    values_ref state_ref = r ∧
    read_state store state_ref = Some state.
Proof.
  intros Hr state. split.
  - split; [done|]. split.
    + unfold state, makeInitialStateFromConfig, validate_or_empty. cbn.
      destruct (validate config) as [f|]; [|done]. cbn.
      by destruct (f (initialValues config)).
    + intros name. cbn. rewrite lookup_toInitialBooleanMap.
      case_decide; [done|]. by destruct (initialValues config !! name).
  - unfold makeInitialStateFromConfig_ref. cbn. rewrite Hr. cbn.
    eexists. split; [done|]. split; [done|].
    unfold read_state. cbn. by rewrite Hr.
Qed.

Lemma makeInitialStateFromConfig_fields_witness :
  let store : Store string := {[ 1%positive := initialValues loginConfig ]} in
  store !! 1%positive = Some (initialValues loginConfig) ∧
  ∃ state_ref,
    makeInitialStateFromConfig_ref store
      {| initialValues_ref := 1%positive; validate_ref := validate loginConfig |}
      = Some (state_ref, store) ∧
    values_ref state_ref = 1%positive ∧
    read_state store state_ref = Some (makeInitialStateFromConfig loginConfig).
Proof.
  intros store. split; [reflexivity|].
  apply (makeInitialStateFromConfig_fields store 1%positive loginConfig).
  reflexivity.
Defined.

(** The initial state of the login form of the test suite. *)
Example loginForm_initially :
  errors (initialContext loginForm)
    = {[ "username" := Some "You must provide a username" ]} ∧
  touched (initialContext loginForm)
    = {[ "username" := false; "password" := false ]} ∧
  getIsValid (selectors loginForm) {[ "loginForm" := initialContext loginForm ]}
    = Some false.
Proof. split; [|split]; reflexivity. Qed.

(** ** Selectors *)

Section selector_facts.
Context {V : Type}.
Variables (key : string) (config : FormModelParams V).
Implicit Types (context : FormContext V) (state : InitialState V).

Lemma getIsValid_lookup context state :
  context !! key = Some state →
  getIsValid (selectors (createFormModel key config)) context
    = Some (bool_decide (errors state = ∅)).
Proof.
  intros Hkey. cbn. rewrite Hkey. cbn. f_equal.
  apply bool_decide_ext, no_Object_keys.
Qed.

Lemma getIsDirty_lookup context state :
  context !! key = Some state →
  getIsDirty (selectors (createFormModel key config)) context
    = Some (some Boolean (Object_values (touched state))).
Proof. intros Hkey. cbn. by rewrite Hkey. Qed.

Lemma getIsPristine_lookup context state :
  context !! key = Some state →
  getIsPristine (selectors (createFormModel key config)) context
    = Some (negb (some Boolean (Object_values (touched state)))).
Proof. intros Hkey. cbn. by rewrite Hkey. Qed.

Lemma some_touched state :
  some Boolean (Object_values (touched state)) = true ↔
  ∃ name, touched state !! name = Some true.
Proof. by rewrite some_Boolean, elem_of_Object_values. Qed.

(** C4.  In a context that holds the form state under [key], [getIsValid]
    is true exactly when [errors] has no entry, [getIsDirty] is true exactly
    when some entry of [touched] is true, and [getIsPristine] is the
    negation of [getIsDirty]. *)
Theorem selectors_spec context state :
  context !! key = Some state →
  ∃ valid dirty,
    getIsValid (selectors (createFormModel key config)) context = Some valid ∧
    getIsDirty (selectors (createFormModel key config)) context = Some dirty ∧
    getIsPristine (selectors (createFormModel key config)) context
      = Some (negb dirty) ∧
    (valid = true ↔ size (errors state) = 0) ∧
    (dirty = true ↔ ∃ name, touched state !! name = Some true).
Proof.
  intros Hkey. eexists _, _.
  split; [by apply getIsValid_lookup|].
  split; [by apply getIsDirty_lookup|].
  split; [by apply getIsPristine_lookup|].
  split; [|apply some_touched].
  by rewrite bool_decide_eq_true, map_size_empty_iff.
Qed.

(** C7, as the code has it.  [getIsValid] is true when every field is
    absent from [errors], and false when some field has an entry, also an
    entry that maps the field to nothing. *)
Theorem getIsValid_absent_fields context state :
  context !! key = Some state →
  ((∀ name, errors state !! name = None) →
   getIsValid (selectors (createFormModel key config)) context = Some true) ∧
  (∀ name, errors state !! name = Some None →
   getIsValid (selectors (createFormModel key config)) context = Some false).
Proof.
  intros Hkey. rewrite (getIsValid_lookup _ _ Hkey). split.
  - intros Habsent. f_equal. apply bool_decide_eq_true.
    by apply map_empty.
  - intros name Hname. f_equal. apply bool_decide_eq_false.
    intros Hempty. by rewrite Hempty, lookup_empty in Hname.
Qed.

End selector_facts.

Lemma selectors_spec_witness :
  ∃ valid dirty,
    getIsValid (selectors loginForm) {[ "loginForm" := initialContext loginForm ]}
      = Some valid ∧
    getIsDirty (selectors loginForm) {[ "loginForm" := initialContext loginForm ]}
      = Some dirty ∧
    getIsPristine (selectors loginForm) {[ "loginForm" := initialContext loginForm ]}
      = Some (negb dirty) ∧
    (valid = true ↔ size (errors (initialContext loginForm)) = 0) ∧
    (dirty = true ↔ ∃ name, touched (initialContext loginForm) !! name = Some true).
Proof.
  apply (selectors_spec "loginForm" loginConfig
           {[ "loginForm" := initialContext loginForm ]}
           (initialContext loginForm)).
  reflexivity.
Defined.

Lemma getIsValid_absent_fields_witness :
  let state : InitialState string :=
    {| values := {[ "username" := "bob" ]}; errors := ∅;
       touched := {[ "username" := false ]} |} in
  getIsValid (selectors requiredForm) {[ "signup" := state ]} = Some true.
Proof.
  intros state.
  apply (getIsValid_absent_fields "signup" requiredConfig
           {[ "signup" := state ]} state); reflexivity.
Defined.

(** C7, as stated, fails.  The validator [requiredUsername] reports the
    filled-in field [username] with [undefined]: every field of the
    resulting [errors] is absent or mapped to nothing, and [getIsValid]
    is false. *)
Lemma getIsValid_undefined_entry :
  let state := initialContext requiredForm in
  let context : FormContext string := {[ "signup" := state ]} in
  errors state = {[ "username" := None ]} ∧
  (∀ name, errors state !! name = None ∨ errors state !! name = Some None) ∧
  getIsValid (selectors requiredForm) context = Some false.
Proof.
  intros state context. split; [reflexivity|]. split; [|reflexivity].
  intros name. destruct (decide (name = "username")) as [->|Hne].
  - right. reflexivity.
  - left. change (errors state) with ({[ "username" := None ]} : ErrorsFromValues).
    by rewrite lookup_singleton_ne.
Qed.

(** ** The three behaviours *)

Section behaviour_facts.
Context {V : Type}.
Variables (key : string) (config : FormModelParams V).
Implicit Types (context : FormContext V) (state previous : InitialState V).
Implicit Types (event : Event V) (a : AssignAction V).

Local Abbreviation writes_value := (writes_value key config).

(** What the callbacks compute, once [context[key]] and the properties of
    the event are known. *)
Lemma assignChangeToState_eq context previous event name value :
  context !! key = Some previous →
  event_name event = Some name →
  event_value event = Some value →
  xstate.assignment (assignChangeToState (actions key config)) context event =
    Some {[ key := {| values := <[name := value]> (values previous);
                      errors := validate_or_empty config
                                  (<[name := value]> (values previous));
                      touched := touched previous |} ]}.
Proof. intros Hkey Hname Hvalue. cbn. by rewrite Hkey, Hname, Hvalue. Qed.

Lemma assignBlurToState_eq context previous event name value :
  context !! key = Some previous →
  event_name event = Some name →
  event_value event = Some value →
  xstate.assignment (assignBlurToState (actions key config)) context event =
    Some {[ key := {| values := <[name := value]> (values previous);
                      errors := validate_or_empty config
                                  (<[name := value]> (values previous));
                      touched := touched previous |} ]}.
Proof. intros Hkey Hname Hvalue. cbn. by rewrite Hkey, Hname, Hvalue. Qed.

Lemma assignFocusToState_eq context previous event name :
  context !! key = Some previous →
  event_name event = Some name →
  xstate.assignment (assignFocusToState (actions key config)) context event =
    Some {[ key := {| values := values previous;
                      errors := errors previous;
                      touched := <[name := true]> (touched previous) |} ]}.
Proof. intros Hkey Hname. cbn. by rewrite Hkey, Hname. Qed.

(** A callback that returns at all found the slice and a name in the
    event, and the behaviours that write a value found a value too. *)
Lemma writes_value_inv a context event partial :
  writes_value a →
  xstate.assignment a context event = Some partial →
  ∃ previous name value,
    context !! key = Some previous ∧
    event_name event = Some name ∧
    event_value event = Some value.
Proof.
  intros [-> | ->] Hrun; cbn in Hrun;
    destruct (context !! key) as [previous|]; try done;
    destruct (event_name event) as [name|]; try done;
    destruct (event_value event) as [value|]; try done;
    by exists previous, name, value.
Qed.

Lemma assignFocusToState_inv context event partial :
  xstate.assignment (assignFocusToState (actions key config)) context event
    = Some partial →
  ∃ previous name,
    context !! key = Some previous ∧ event_name event = Some name.
Proof.
  intros Hrun; cbn in Hrun.
  destruct (context !! key) as [previous|]; try done.
  destruct (event_name event) as [name|]; try done.
  by exists previous, name.
Qed.

Lemma validate_or_empty_eq (v : Values V) :
  validate_or_empty config v =
    match validate config with
    | Some validate =>
        match validate v with
        | Some errors => errors
        | None => ∅
        end
    | None => ∅
    end.
Proof.
  unfold validate_or_empty. destruct (validate config) as [f|]; [|done].
  cbn. by destruct (f v).
Qed.

(** C1.  On an event that carries the field name [f] and the value [v], the
    CHANGE behaviour, and likewise the BLUR behaviour, returns the form
    state under [key] in which [values] maps [f] to [v] and every other
    field to its previous value, [errors] is [validate(newValues)] when a
    validator was supplied (the empty mapping when the validator returns
    nothing) and the empty mapping otherwise, and [touched] is the previous
    [touched]. *)
Theorem assign_change_blur_spec a context previous event f v :
  writes_value a →
  context !! key = Some previous →
  event_name event = Some f →
  event_value event = Some v →
  ∃ next,
    xstate.assignment a context event = Some {[ key := next ]} ∧
    values next !! f = Some v ∧
    (∀ g, g ≠ f → values next !! g = values previous !! g) ∧
    errors next =
      match validate config with
      | Some validate =>
          match validate (values next) with
          | Some errors => errors
          | None => ∅
          end
      | None => ∅
      end ∧
    touched next = touched previous.
Proof.
  intros Ha Hkey Hf Hv. eexists. split.
  - destruct Ha as [-> | ->].
    + by apply assignChangeToState_eq.
    + by apply assignBlurToState_eq.
  - cbn. split; [apply lookup_insert_eq|].
    split; [by intros g Hg; apply lookup_insert_ne|].
    split; [apply validate_or_empty_eq|done].
Qed.

(** C9.  The CHANGE and the BLUR behaviour agree on every context and every
    event: they return the same partial context, or both return nothing. *)
Theorem assign_change_blur_equal context event :
  xstate.assignment (assignChangeToState (actions key config)) context event =
  xstate.assignment (assignBlurToState (actions key config)) context event.
Proof.
  cbn. destruct (context !! key) as [previous|]; [|done]. cbn.
  destruct (event_name event) as [name|]; [|done]. cbn.
  by destruct (event_value event).
Qed.

(** C3.  On an event that carries the field name [f], the FOCUS behaviour
    returns the form state under [key] in which [touched] maps [f] to true
    and every other field to its previous entry, and [values] and [errors]
    are the previous ones.  In any context that holds this state under
    [key], [getIsDirty] is true and [getIsPristine] is false. *)
Theorem assign_focus_spec context previous event f :
  context !! key = Some previous →
  event_name event = Some f →
  ∃ next,
    xstate.assignment (assignFocusToState (actions key config)) context event
      = Some {[ key := next ]} ∧
    touched next !! f = Some true ∧
    (∀ g, g ≠ f → touched next !! g = touched previous !! g) ∧
    values next = values previous ∧
    errors next = errors previous ∧
    ∀ context', context' !! key = Some next →
      getIsDirty (selectors (createFormModel key config)) context' = Some true ∧
      getIsPristine (selectors (createFormModel key config)) context' = Some false.
Proof.
  intros Hkey Hf. eexists. split; [by apply assignFocusToState_eq|].
  split; [apply lookup_insert_eq|].
  split; [by intros g Hg; apply lookup_insert_ne|].
  do 2 (split; [done|]).
  intros context' Hnext.
  assert (some Boolean (Object_values (<[f := true]> (touched previous))) = true)
    as Hdirty.
  { apply some_Boolean, elem_of_Object_values. exists f.
    apply lookup_insert_eq. }
  rewrite (getIsDirty_lookup key config _ _ Hnext),
    (getIsPristine_lookup key config _ _ Hnext).
  cbn. by rewrite Hdirty.
Qed.

(** C10.  When the supplied validator returns nothing, the initial state
    and the state after CHANGE or BLUR hold the empty mapping as [errors],
    and [getIsValid] answers (true) in any context that holds such a state
    under [key]. *)
Theorem errors_always_defined (validator : ValidateFunction V) :
  validate config = Some validator →
  (validator (initialValues config) = None →
   errors (makeInitialStateFromConfig config) = ∅ ∧
   ∀ context, context !! key = Some (makeInitialStateFromConfig config) →
     getIsValid (selectors (createFormModel key config)) context = Some true) ∧
  (∀ a context previous event name value,
     writes_value a →
     context !! key = Some previous →
     event_name event = Some name →
     event_value event = Some value →
     validator (<[name := value]> (values previous)) = None →
     ∃ next,
       xstate.assignment a context event = Some {[ key := next ]} ∧
       errors next = ∅ ∧
       ∀ context', context' !! key = Some next →
         getIsValid (selectors (createFormModel key config)) context' = Some true).
Proof.
  intros Hvalidate. split.
  - intros Hvoid.
    assert (errors (makeInitialStateFromConfig config) = ∅) as Hempty.
    { cbn. by rewrite validate_or_empty_eq, Hvalidate, Hvoid. }
    split; [done|]. intros context Hkey.
    rewrite (getIsValid_lookup key config _ _ Hkey), Hempty.
    by rewrite bool_decide_eq_true_2.
  - intros a context previous event name value Ha Hkey Hname Hvalue Hvoid.
    eexists. split.
    + destruct Ha as [-> | ->].
      * by apply assignChangeToState_eq.
      * by apply assignBlurToState_eq.
    + assert (validate_or_empty config (<[name := value]> (values previous)) = ∅)
        as Hempty by (by rewrite validate_or_empty_eq, Hvalidate, Hvoid).
      split; [done|]. intros context' Hnext.
      rewrite (getIsValid_lookup key config _ _ Hnext). cbn [errors].
      by rewrite Hempty, bool_decide_eq_true_2.
Qed.

End behaviour_facts.

(** ** [createState] *)

Section createState_facts.
Context {V : Type}.
Variables (key : string) (config : FormModelParams V).
Implicit Types (context : FormContext V) (event : Event V).

Lemma CHANGE_not_BLUR : key +:+ ".CHANGE" ≠ key +:+ ".BLUR".
Proof. intros Heq. by apply (inj (String.app key)) in Heq. Qed.

Lemma CHANGE_not_FOCUS : key +:+ ".CHANGE" ≠ key +:+ ".FOCUS".
Proof. intros Heq. by apply (inj (String.app key)) in Heq. Qed.

Lemma BLUR_not_FOCUS : key +:+ ".BLUR" ≠ key +:+ ".FOCUS".
Proof. intros Heq. by apply (inj (String.app key)) in Heq. Qed.

(** The handlers of the decorated configuration: the caller's entry where
    there is one, the default for the three event types otherwise. *)
Lemma on_createState {Rest} (node : StateNodeConfig V Rest) :
  ∃ handlers,
    xstate.on (createState (createFormModel key config) node) = Some handlers ∧
    ∀ type, handlers !! type =
      match handler_of node type with
      | Some transition => Some transition
      | None =>
          if decide (type = key +:+ ".FOCUS") then
            Some {| xstate.actions :=
                      [xstate.AssignAct (assignFocusToState (actions key config))] |}
          else if decide (type = key +:+ ".BLUR") then
            Some {| xstate.actions :=
                      [xstate.AssignAct (assignBlurToState (actions key config))] |}
          else if decide (type = key +:+ ".CHANGE") then
            Some {| xstate.actions :=
                      [xstate.AssignAct (assignChangeToState (actions key config))] |}
          else None
      end.
Proof.
  eexists. split; [reflexivity|]. intros type. rewrite lookup_spread.
  assert (or_else (xstate.on node) ∅ !! type = handler_of node type) as ->.
  { unfold handler_of. by destruct (xstate.on node). }
  destruct (handler_of node type) as [transition|]; [done|].
  rewrite !lookup_insert, lookup_empty.
  repeat (case_decide; subst; try done).
Qed.

(** The handlers of a configuration that has an [on]. *)
Lemma handler_of_on {Rest} (node : StateNodeConfig V Rest) handlers type :
  xstate.on node = Some handlers → handler_of node type = handlers !! type.
Proof. intros Hon. unfold handler_of. by rewrite Hon. Qed.

Lemma handler_of_no_on {Rest} (node : StateNodeConfig V Rest) type :
  xstate.on node = None → handler_of node type = None.
Proof. intros Hon. unfold handler_of. by rewrite Hon. Qed.

(** The action objects of CHANGE and BLUR are two objects. *)
Lemma change_blur_distinct :
  assignChangeToState (actions key config)
    ≠ assignBlurToState (actions key config).
Proof. intros Heq. by apply (f_equal xstate.identity) in Heq. Qed.

Lemma change_focus_distinct :
  assignChangeToState (actions key config)
    ≠ assignFocusToState (actions key config).
Proof. intros Heq. by apply (f_equal xstate.identity) in Heq. Qed.

Lemma blur_focus_distinct :
  assignBlurToState (actions key config)
    ≠ assignFocusToState (actions key config).
Proof. intros Heq. by apply (f_equal xstate.identity) in Heq. Qed.

(** Functions of the caller leave the context alone and are logged in the
    order in which they are listed. *)
Lemma execute_functions event context (called names : list string) :
  foldl (execute event) (Some (context, called)) (xstate.FunctionAct <$> names)
    = Some (context, called ++ names).
Proof.
  revert called. induction names as [|name names IH]; intros called.
  - by rewrite app_nil_r.
  - cbn. rewrite IH. by rewrite <-app_assoc.
Qed.

End createState_facts.

(** C5, as the code has it.  The configuration that [createState] returns
    has a handler for each of [<key>.CHANGE], [<key>.BLUR] and [<key>.FOCUS]
    and keeps the rest of the caller's configuration.  Without an [on] of
    the caller the three handlers are the defaults.  With an [on] of the
    caller, every handler that it declares is the handler of the result, and
    for each of the three event types that it does not declare the default
    stands.  When the caller's [on] declares [<key>.CHANGE], an event of
    that type runs the caller's actions and nothing else; if these are plain
    functions, the context, and with it [values], stays as it was. *)
Theorem createState_spec {V Rest} (key : string) (config : FormModelParams V)
    (node : StateNodeConfig V Rest) :
  let node' := createState (createFormModel key config) node in
  let default_change :=
    {| xstate.actions :=
         [xstate.AssignAct (assignChangeToState (actions key config))] |} in
  let default_blur :=
    {| xstate.actions :=
         [xstate.AssignAct (assignBlurToState (actions key config))] |} in
  let default_focus :=
    {| xstate.actions :=
         [xstate.AssignAct (assignFocusToState (actions key config))] |} in
  ∃ handlers,
    xstate.on node' = Some handlers ∧
    xstate.rest node' = xstate.rest node ∧
    (is_Some (handlers !! (key +:+ ".CHANGE")) ∧
     is_Some (handlers !! (key +:+ ".BLUR")) ∧
     is_Some (handlers !! (key +:+ ".FOCUS"))) ∧
    (xstate.on node = None →
     handlers !! (key +:+ ".CHANGE") = Some default_change ∧
     handlers !! (key +:+ ".BLUR") = Some default_blur ∧
     handlers !! (key +:+ ".FOCUS") = Some default_focus) ∧
    ∀ callerOn,
      xstate.on node = Some callerOn →
      (∀ type transition,
         callerOn !! type = Some transition →
         handlers !! type = Some transition) ∧
      (callerOn !! (key +:+ ".CHANGE") = None →
       handlers !! (key +:+ ".CHANGE") = Some default_change) ∧
      (callerOn !! (key +:+ ".BLUR") = None →
       handlers !! (key +:+ ".BLUR") = Some default_blur) ∧
      (callerOn !! (key +:+ ".FOCUS") = None →
       handlers !! (key +:+ ".FOCUS") = Some default_focus) ∧
      ∀ transition,
        callerOn !! (key +:+ ".CHANGE") = Some transition →
        ∀ context event,
          event_type event = key +:+ ".CHANGE" →
          send node' context event =
            foldl (execute event) (Some (context, []))
              (xstate.actions transition) ∧
          ∀ names,
            xstate.actions transition = xstate.FunctionAct <$> names →
            send node' context event = Some (context, names).
Proof.
  intros node' default_change default_blur default_focus.
  destruct (on_createState key config node) as (handlers & Hon & Hlookup).
  exists handlers. split; [done|]. split; [done|].
  pose proof (CHANGE_not_BLUR key) as Hcb.
  pose proof (CHANGE_not_FOCUS key) as Hcf.
  pose proof (BLUR_not_FOCUS key) as Hbf.
  split; [|split].
  - rewrite !Hlookup.
    repeat split;
      match goal with
      | |- is_Some (match ?o with _ => _ end) => destruct o
      end; try done; repeat (case_decide; try done).
  - intros Hnone. rewrite !Hlookup, !(handler_of_no_on _ _ Hnone).
    repeat split; by repeat (case_decide; try done).
  - intros callerOn Hcaller.
    split; [|split; [|split; [|split]]].
    + intros type transition Htype.
      by rewrite Hlookup, (handler_of_on _ _ _ Hcaller), Htype.
    + intros Hnone. rewrite Hlookup, (handler_of_on _ _ _ Hcaller), Hnone.
      by repeat (case_decide; try done).
    + intros Hnone. rewrite Hlookup, (handler_of_on _ _ _ Hcaller), Hnone.
      by repeat (case_decide; try done).
    + intros Hnone. rewrite Hlookup, (handler_of_on _ _ _ Hcaller), Hnone.
      by repeat (case_decide; try done).
    + intros transition Htransition context event Htype.
      assert (send node' context event =
                foldl (execute event) (Some (context, []))
                  (xstate.actions transition)) as Hsend.
      { unfold send. fold node' in Hon.
        rewrite (handler_of_on _ _ _ Hon), Htype, Hlookup.
        by rewrite (handler_of_on _ _ _ Hcaller), Htransition. }
      split; [done|]. intros names Hnames.
      by rewrite Hsend, Hnames, execute_functions.
Qed.

Lemma createState_spec_witness :
  send (createState plainForm
          {| xstate.on := Some {[ "loginForm.CHANGE" :=
                 {| xstate.actions := [xstate.FunctionAct "action"] |} ]};
             xstate.rest := tt |})
    {[ "loginForm" := initialContext plainForm ]}
    (change (events plainForm) "username" "username")
  = Some ({[ "loginForm" := initialContext plainForm ]}, ["action"]).
Proof.
  destruct (createState_spec "loginForm" plainConfig
              {| xstate.on := Some {[ "loginForm.CHANGE" :=
                     {| xstate.actions := [xstate.FunctionAct "action"] |} ]};
                 xstate.rest := tt |})
    as (handlers & _ & _ & _ & _ & Hcaller).
  destruct (Hcaller _ eq_refl) as (_ & _ & _ & _ & Hoverride).
  apply (proj2 (Hoverride {| xstate.actions := [xstate.FunctionAct "action"] |}
                  eq_refl {[ "loginForm" := initialContext plainForm ]}
                  (change (events plainForm) "username" "username") eq_refl)
           ["action"] eq_refl).
Defined.

(** C5, as stated, fails.  The caller overrides ['loginForm.CHANGE'] with
    the assign action [resetUsername]; a CHANGE event then runs the
    caller's action, and [values] does not stay as it was. *)
Lemma createState_override_assigns :
  let node : StateNodeConfig string () :=
    {| xstate.on := Some {[ "loginForm.CHANGE" :=
           {| xstate.actions := [xstate.AssignAct resetUsername] |} ]};
       xstate.rest := tt |} in
  let context : FormContext string :=
    {[ "loginForm" := initialContext plainForm ]} in
  ∃ context',
    handler_of node "loginForm.CHANGE"
      = Some {| xstate.actions := [xstate.AssignAct resetUsername] |} ∧
    send (createState plainForm node) context
      (change (events plainForm) "password" "secret") = Some (context', []) ∧
    values <$> context !! "loginForm"
      = Some {[ "username" := ""; "password" := "" ]} ∧
    values <$> context' !! "loginForm"
      = Some {[ "username" := "reset"; "password" := "" ]} ∧
    values <$> context' !! "loginForm" ≠ values <$> context !! "loginForm".
Proof.
  intros node context. eexists.
  split; [reflexivity|]. split; [reflexivity|].
  split; [reflexivity|]. split; [reflexivity|].
  intros Heq.
  apply (f_equal (λ o : option (Values string), o ≫= (λ v, v !! "username")))
    in Heq.
  discriminate Heq.
Qed.

(** The override test of the suite: the caller declares
    ['loginForm.CHANGE'] with a function; a CHANGE event calls the function
    once and [values] stays as it was.  Without the caller's entry the
    same event updates [values]. *)
Example loginForm_override :
  let context : FormContext string := {[ "loginForm" := initialContext plainForm ]} in
  let event := NameValueEvent "loginForm.CHANGE" "username" "username" in
  send (createState plainForm
          {| xstate.on := Some {[ "loginForm.CHANGE" :=
                 {| xstate.actions := [xstate.FunctionAct "action"] |} ]};
             xstate.rest := tt |}) context event
    = Some (context, ["action"]) ∧
  (send (createState plainForm {| xstate.on := None; xstate.rest := tt |})
     context event ≫= λ result, values <$> result.1 !! "loginForm")
    = Some {[ "username" := "username"; "password" := "" ]}.
Proof. split; reflexivity. Qed.

(** ** Invariants of the form state *)

Section invariants.
Context {V : Type}.
Variables (key : string) (config : FormModelParams V).
Implicit Types (context : FormContext V) (state : InitialState V).
Implicit Types (event : Event V) (a : AssignAction V).

(** One application of a behaviour that writes a value. *)
Lemma writes_value_step a context state event partial state' :
  writes_value key config a →
  context !! key = Some state →
  xstate.assignment a context event = Some partial →
  partial !! key = Some state' →
  ∃ name value,
    event_name event = Some name ∧
    event_value event = Some value ∧
    state' = {| values := <[name := value]> (values state);
                errors := validate_or_empty config
                            (<[name := value]> (values state));
                touched := touched state |}.
Proof.
  intros Ha Hkey Hrun Hpartial.
  destruct (writes_value_inv key config a context event partial Ha Hrun)
    as (previous & name & value & Hprevious & Hname & Hvalue).
  exists name, value. split; [done|]. split; [done|].
  assert (previous = state) as -> by congruence.
  destruct Ha as [-> | ->].
  - rewrite (assignChangeToState_eq key config _ _ _ _ _ Hkey Hname Hvalue)
      in Hrun.
    injection Hrun as <-. rewrite lookup_singleton_eq in Hpartial. congruence.
  - rewrite (assignBlurToState_eq key config _ _ _ _ _ Hkey Hname Hvalue)
      in Hrun.
    injection Hrun as <-. rewrite lookup_singleton_eq in Hpartial. congruence.
Qed.

(** One application of the FOCUS behaviour. *)
Lemma focus_step context state event partial state' :
  context !! key = Some state →
  xstate.assignment (assignFocusToState (actions key config)) context event
    = Some partial →
  partial !! key = Some state' →
  ∃ name,
    event_name event = Some name ∧
    state' = {| values := values state;
                errors := errors state;
                touched := <[name := true]> (touched state) |}.
Proof.
  intros Hkey Hrun Hpartial.
  destruct (assignFocusToState_inv key config context event partial Hrun)
    as (previous & name & Hprevious & Hname).
  exists name. split; [done|].
  assert (previous = state) as -> by congruence.
  rewrite (assignFocusToState_eq key config _ _ _ _ Hkey Hname) in Hrun.
  injection Hrun as <-. rewrite lookup_singleton_eq in Hpartial. congruence.
Qed.

(** The action that the model's own configuration runs for an event of one
    of its three types. *)
Lemma own_dispatch_inv a event :
  own_dispatch key config a event →
  ∃ name, name ∈ dom (initialValues config) ∧ event_name event = Some name ∧
    (writes_value key config a ∨ a = assignFocusToState (actions key config)).
Proof.
  intros [(name & Hdeclared & Hevent) (transition & Hhandler & Ha)].
  exists name. split; [done|].
  destruct (on_createState key config
              {| xstate.on := None; xstate.rest := tt |})
    as (handlers & Hon & Hlookup).
  rewrite (handler_of_on _ _ _ Hon), Hlookup in Hhandler.
  cbn [handler_of xstate.on] in Hhandler.
  pose proof (CHANGE_not_BLUR key) as Hcb.
  pose proof (CHANGE_not_FOCUS key) as Hcf.
  pose proof (BLUR_not_FOCUS key) as Hbf.
  destruct Hevent as [[value ->] | [[value ->] | ->]];
    cbn [event_type event_name createFormModel events change blur focus]
      in Hhandler |- *;
    (split; [done|]);
    repeat (case_decide; try done);
    injection Hhandler as <-;
    apply list_elem_of_singleton in Ha; injection Ha as ->;
    unfold writes_value; auto.
Qed.

(** C6.  In every form state that any sequence of CHANGE, BLUR and FOCUS
    behaviours reaches from the initial state, [errors] is what the
    validator returns for the current [values], the empty mapping when the
    validator returns nothing or when no validator was supplied. *)
Theorem errors_never_stale state :
  reachable key config (any_behaviour key config) state →
  errors state =
    match validate config with
    | Some validate =>
        match validate (values state) with
        | Some errors => errors
        | None => ∅
        end
    | None => ∅
    end.
Proof.
  intros Hreach. rewrite <-validate_or_empty_eq.
  induction Hreach
    as [|state context a event partial state' _ IH Hkey Ha Hrun Hpartial].
  - done.
  - destruct Ha as [Ha | [Ha | ->]].
    + destruct (writes_value_step a context state event partial state')
        as (name & value & _ & _ & ->); [by left|done..].
    + destruct (writes_value_step a context state event partial state')
        as (name & value & _ & _ & ->); [by right|done..].
    + destruct (focus_step context state event partial state')
        as (name & _ & ->); done.
Qed.

(** X22.  In every form state that the events of the model's own
    constructors, built for declared field names and handled by the
    model's handlers, reach from the initial state, [touched] has entries
    for field names of [initialValues] only, and for every one of them but
    possibly [__proto__].  When [initialValues] has no field [__proto__],
    [touched] has an entry for exactly the field names of
    [initialValues]. *)
Theorem touched_fields_bounds state :
  reachable key config (own_dispatch key config) state →
  dom (initialValues config) ∖ {[ "__proto__" ]} ⊆ dom (touched state) ∧
  dom (touched state) ⊆ dom (initialValues config) ∧
  ("__proto__" ∉ dom (initialValues config) →
   dom (touched state) = dom (initialValues config)).
Proof.
  intros Hreach.
  assert (dom (initialValues config) ∖ {[ "__proto__" ]} ⊆ dom (touched state) ∧
          dom (touched state) ⊆ dom (initialValues config)) as [Hlow Hhigh].
  { induction Hreach
      as [|state context a event partial state' _ IH Hkey Ha Hrun Hpartial].
    - cbn. rewrite dom_toInitialBooleanMap. split; [done|].
      apply subseteq_difference_l. done.
    - destruct IH as [IHlow IHhigh].
      destruct (own_dispatch_inv a event Ha)
        as (name & Hdeclared & Hname & [Hwrites | ->]).
      + destruct (writes_value_step a context state event partial state')
          as (name' & value & _ & _ & ->); done.
      + destruct (focus_step context state event partial state')
          as (name' & Hname' & ->); [done..|].
        assert (name' = name) as -> by congruence.
        cbn. rewrite dom_insert_L. split.
        * etrans; [done|]. apply union_subseteq_r.
        * apply union_least; [by apply singleton_subseteq_l|done]. }
  split; [done|]. split; [done|].
  intros Hproto. apply set_eq. intros name. split; [by apply Hhigh|].
  intros Hname. apply Hlow. apply elem_of_difference. split; [done|].
  apply not_elem_of_singleton. by intros ->.
Qed.

End invariants.

(** C8, at an [initialValues] with an own property [__proto__].  The field
    [__proto__] is a field of [initialValues] and has no entry in the
    initial [touched]; the event [events.focus('__proto__')], handled by
    the model's own handler, leads to a state in which [touched] has the
    entry: a field is added to [touched] after the model was created. *)
Theorem touched_fields_proto :
  "__proto__" ∈ dom (initialValues protoConfig) ∧
  touched (initialContext protoForm) !! "__proto__" = None ∧
  dom (touched (initialContext protoForm)) ≠ dom (initialValues protoConfig) ∧
  reachable "form" protoConfig (own_dispatch "form" protoConfig)
    protoForm_focused ∧
  touched protoForm_focused !! "__proto__" = Some true.
Proof.
  assert ("__proto__" ∈ dom (initialValues protoConfig)) as Hdeclared.
  { apply elem_of_dom. eexists. reflexivity. }
  split; [done|]. split; [reflexivity|]. split; [|split; [|reflexivity]].
  - intros Hdom. rewrite <-Hdom in Hdeclared.
    apply elem_of_dom in Hdeclared as [b Hb].
    assert (touched (initialContext protoForm) !! "__proto__" = None) as Hnone
      by reflexivity.
    congruence.
  - eapply (reachable_apply _ _ _ (initialContext protoForm)
              {[ "form" := initialContext protoForm ]}
              (assignFocusToState (actions "form" protoConfig))
              (focus (events protoForm) "__proto__")).
    + apply reachable_initial.
    + reflexivity.
    + split.
      * exists "__proto__". split; [done|]. right. right. reflexivity.
      * eexists. split; [reflexivity|]. apply list_elem_of_here.
    + reflexivity.
    + reflexivity.
Qed.

(** ** The properties at the login form of the test suite *)

Lemma assign_change_blur_spec_witness :
  ∃ next,
    xstate.assignment (assignChangeToState (actions "loginForm" loginConfig))
      {[ "loginForm" := initialContext loginForm ]}
      (change (events loginForm) "username" "something")
      = Some {[ "loginForm" := next ]} ∧
    values next !! "username" = Some "something" ∧
    (∀ g, g ≠ "username" →
       values next !! g = values (initialContext loginForm) !! g) ∧
    errors next =
      match validate loginConfig with
      | Some validate =>
          match validate (values next) with
          | Some errors => errors
          | None => ∅
          end
      | None => ∅
      end ∧
    touched next = touched (initialContext loginForm).
Proof.
  apply (assign_change_blur_spec "loginForm" loginConfig
           (assignChangeToState (actions "loginForm" loginConfig))
           {[ "loginForm" := initialContext loginForm ]}
           (initialContext loginForm)
           (change (events loginForm) "username" "something")
           "username" "something").
  - left. reflexivity.
  - reflexivity.
  - reflexivity.
  - reflexivity.
Defined.

Lemma assign_focus_spec_witness :
  ∃ next,
    xstate.assignment (assignFocusToState (actions "loginForm" plainConfig))
      {[ "loginForm" := initialContext plainForm ]}
      (focus (events plainForm) "username")
      = Some {[ "loginForm" := next ]} ∧
    touched next !! "username" = Some true ∧
    (∀ g, g ≠ "username" →
       touched next !! g = touched (initialContext plainForm) !! g) ∧
    values next = values (initialContext plainForm) ∧
    errors next = errors (initialContext plainForm) ∧
    ∀ context', context' !! "loginForm" = Some next →
      getIsDirty (selectors (createFormModel "loginForm" plainConfig)) context'
        = Some true ∧
      getIsPristine (selectors (createFormModel "loginForm" plainConfig)) context'
        = Some false.
Proof.
  apply (assign_focus_spec "loginForm" plainConfig
           {[ "loginForm" := initialContext plainForm ]}
           (initialContext plainForm)
           (focus (events plainForm) "username") "username").
  - reflexivity.
  - reflexivity.
Defined.

Lemma errors_always_defined_witness :
  ∃ next,
    xstate.assignment (assignChangeToState (actions "loginForm" loginConfig))
      {[ "loginForm" := loginForm_named ]}
      (change (events loginForm) "password" "pass")
      = Some {[ "loginForm" := next ]} ∧
    errors next = ∅ ∧
    ∀ context', context' !! "loginForm" = Some next →
      getIsValid (selectors (createFormModel "loginForm" loginConfig)) context'
        = Some true.
Proof.
  apply (proj2 (errors_always_defined "loginForm" loginConfig loginValidate
                  eq_refl)
           (assignChangeToState (actions "loginForm" loginConfig))
           {[ "loginForm" := loginForm_named ]} loginForm_named
           (change (events loginForm) "password" "pass") "password" "pass").
  - left. reflexivity.
  - reflexivity.
  - reflexivity.
  - reflexivity.
  - reflexivity.
Defined.

Lemma errors_never_stale_witness :
  reachable "loginForm" loginConfig (any_behaviour "loginForm" loginConfig)
    loginForm_named ∧
  errors loginForm_named =
    match validate loginConfig with
    | Some validate =>
        match validate (values loginForm_named) with
        | Some errors => errors
        | None => ∅
        end
    | None => ∅
    end.
Proof.
  assert (reachable "loginForm" loginConfig
            (any_behaviour "loginForm" loginConfig) loginForm_named) as Hreach.
  { eapply (reachable_apply _ _ _ (initialContext loginForm)
              {[ "loginForm" := initialContext loginForm ]}
              (assignChangeToState (actions "loginForm" loginConfig))
              (change (events loginForm) "username" "something")).
    - apply reachable_initial.
    - reflexivity.
    - left. reflexivity.
    - reflexivity.
    - reflexivity. }
  split; [exact Hreach|].
  apply (errors_never_stale "loginForm" loginConfig loginForm_named Hreach).
Defined.

Lemma touched_fields_bounds_witness :
  reachable "loginForm" plainConfig (own_dispatch "loginForm" plainConfig)
    plainForm_focused ∧
  dom (initialValues plainConfig) ∖ {[ "__proto__" ]}
    ⊆ dom (touched plainForm_focused) ∧
  dom (touched plainForm_focused) ⊆ dom (initialValues plainConfig) ∧
  ("__proto__" ∉ dom (initialValues plainConfig) →
   dom (touched plainForm_focused) = dom (initialValues plainConfig)).
Proof.
  assert (reachable "loginForm" plainConfig
            (own_dispatch "loginForm" plainConfig) plainForm_focused) as Hreach.
  { eapply (reachable_apply _ _ _ (initialContext plainForm)
              {[ "loginForm" := initialContext plainForm ]}
              (assignFocusToState (actions "loginForm" plainConfig))
              (focus (events plainForm) "username")).
    - apply reachable_initial.
    - reflexivity.
    - split.
      + exists "username". split.
        * apply elem_of_dom. eexists. reflexivity.
        * right. right. reflexivity.
      + eexists. split; [reflexivity|]. apply list_elem_of_here.
    - reflexivity.
    - reflexivity. }
  split; [exact Hreach|].
  apply (touched_fields_bounds "loginForm" plainConfig plainForm_focused Hreach).
Defined.

(** The scenario of the test suite: the errors after each CHANGE, and
    validity at the end. *)
Example loginForm_scenario :
  let node := createState loginForm {| xstate.on := None; xstate.rest := tt |} in
  let context : FormContext string := {[ "loginForm" := initialContext loginForm ]} in
  ∃ context1 context2,
    send node context (change (events loginForm) "username" "something")
      = Some (context1, []) ∧
    errors <$> context1 !! "loginForm"
      = Some {[ "password" := Some "You must provide a password" ]} ∧
    send node context1 (change (events loginForm) "password" "pass")
      = Some (context2, []) ∧
    errors <$> context2 !! "loginForm" = Some ∅ ∧
    getIsValid (selectors loginForm) context2 = Some true.
Proof.
  intros node context. eexists _, _.
  split; [reflexivity|]. split; [reflexivity|].
  split; [reflexivity|]. split; reflexivity.
Qed.

(** The focus test of the suite, on a form with the one field [username]. *)
Example focus_scenario :
  let model := createFormModel "loginForm"
                 {| initialValues := {[ "username" := "" ]}; validate := None |} in
  let node := createState model {| xstate.on := None; xstate.rest := tt |} in
  ∃ context1,
    send node {[ "loginForm" := initialContext model ]}
      (NameEvent "loginForm.FOCUS" "username") = Some (context1, []) ∧
    touched <$> context1 !! "loginForm" = Some {[ "username" := true ]} ∧
    getIsDirty (selectors model) context1 = Some true ∧
    getIsPristine (selectors model) context1 = Some false.
Proof.
  intros model node. eexists.
  split; [reflexivity|]. split; [reflexivity|]. split; reflexivity.
Qed.

(** Nothing checks the field name at a behaviour: FOCUS on a name that
    [initialValues] does not declare adds an entry to [touched]. *)
Example focus_undeclared_field :
  (xstate.assignment (assignFocusToState (actions "loginForm" plainConfig))
     {[ "loginForm" := initialContext plainForm ]}
     (NameEvent "loginForm.FOCUS" "email")
   ≫= λ partial, touched <$> partial !! "loginForm")
  = Some {[ "username" := false; "password" := false; "email" := true ]}.
Proof. reflexivity. Qed.

(** * Further properties *)

(** ** Event types *)

Section event_types.
Local Abbreviation to_chars := Stdlib.Strings.String.list_ascii_of_string.
Local Abbreviation of_chars := Stdlib.Strings.String.string_of_list_ascii.
Local Abbreviation of_to_chars :=
  Stdlib.Strings.String.string_of_list_ascii_of_string.

Lemma list_ascii_of_string_app (s1 s2 : string) :
  to_chars (s1 +:+ s2)
    = to_chars s1 ++ to_chars s2.
Proof.
  induction s1 as [|c s1 IH]; [done|].
  change (String c s1 +:+ s2) with (String c (s1 +:+ s2)).
  cbn. by rewrite IH.
Qed.

Lemma list_ascii_of_string_inj (s1 s2 : string) :
  to_chars s1 = to_chars s2 → s1 = s2.
Proof.
  intros Heq. apply (f_equal of_chars) in Heq.
  by rewrite !of_to_chars in Heq.
Qed.

(** The four suffixes of the event types. *)
Lemma suffixed_inj (key1 key2 s1 s2 : string) :
  s1 ∈ [".CHANGE"; ".BLUR"; ".FOCUS"; ".SUBMIT"] →
  s2 ∈ [".CHANGE"; ".BLUR"; ".FOCUS"; ".SUBMIT"] →
  key1 +:+ s1 = key2 +:+ s2 →
  key1 = key2 ∧ s1 = s2.
Proof.
  intros Hs1 Hs2 Heq.
  apply (f_equal to_chars) in Heq.
  rewrite !list_ascii_of_string_app in Heq.
  apply (f_equal reverse) in Heq. rewrite !reverse_app in Heq.
  repeat (apply elem_of_cons in Hs1 as [->|Hs1]);
    [..|by apply elem_of_nil in Hs1];
    (repeat (apply elem_of_cons in Hs2 as [->|Hs2]);
       [..|by apply elem_of_nil in Hs2]);
    cbn in Heq; try discriminate Heq;
    (split; [|done]); simplify_eq;
    by apply list_ascii_of_string_inj.
Qed.

End event_types.

(** X1.  The four constructors of one model give four different event
    types, whatever their arguments. *)
Theorem event_types_of_constructors {V} (key : string)
    (config : FormModelParams V) name1 value1 name2 value2 name3 values4 :
  NoDup [ event_type (change (events (createFormModel key config)) name1 value1);
          event_type (blur (events (createFormModel key config)) name2 value2);
          event_type (focus (events (createFormModel key config)) name3);
          event_type (submit (events (createFormModel key config)) values4) ].
Proof.
  cbn [createFormModel events change blur focus submit event_type].
  repeat (apply NoDup_cons; split); [..|apply NoDup_nil_2];
    rewrite ?not_elem_of_cons; repeat split; try apply not_elem_of_nil;
    intros Heq; by apply (inj (String.app key)) in Heq.
Qed.

(** X2.  Events built by the constructors of two models with different
    keys never have the same type. *)
Theorem event_types_of_other_key {V} (key1 key2 : string)
    (config1 config2 : FormModelParams V) (event1 event2 : Event V) :
  key1 ≠ key2 →
  built_by (createFormModel key1 config1) event1 →
  built_by (createFormModel key2 config2) event2 →
  event_type event1 ≠ event_type event2.
Proof.
  intros Hkeys Hbuilt1 Hbuilt2 Heq. apply Hkeys.
  destruct Hbuilt1 as [(? & ? & ->) | [(? & ? & ->) | [(? & ->) | (? & ->)]]];
    destruct Hbuilt2 as [(? & ? & ->) | [(? & ? & ->) | [(? & ->) | (? & ->)]]];
    cbn [createFormModel events change blur focus submit event_type] in Heq;
    apply suffixed_inj in Heq as [Hkey _]; try done;
    rewrite !elem_of_cons; auto 6.
Qed.

Lemma event_types_of_other_key_witness :
  event_type (change (events loginForm) "username" "bob")
    ≠ event_type (change (events requiredForm) "username" "bob").
Proof.
  apply (event_types_of_other_key "loginForm" "signup" loginConfig requiredConfig).
  - discriminate.
  - left. exists "username", "bob". reflexivity.
  - left. exists "username", "bob". reflexivity.
Defined.

(** ** More on [createState] *)

Section createState_more.
Context {V Rest : Type}.
Variables (key : string) (config : FormModelParams V).
Implicit Types (node : StateNodeConfig V Rest) (a : AssignAction V).

Local Abbreviation model := (createFormModel key config).

(** The event types with a handler in the decorated configuration. *)
Lemma dom_createState node handlers :
  xstate.on (createState model node) = Some handlers →
  ∀ type, type ∈ dom handlers ↔
    type ∈ ({[ key +:+ ".CHANGE"; key +:+ ".BLUR"; key +:+ ".FOCUS" ]}
              : gset string)
    ∨ is_Some (handler_of node type).
Proof.
  intros Hon type.
  destruct (on_createState key config node) as (handlers' & Hon' & Hlookup).
  assert (handlers' = handlers) as -> by congruence.
  rewrite elem_of_dom, Hlookup, !elem_of_union, !elem_of_singleton.
  destruct (handler_of node type) as [transition|].
  - split; [by right|by eauto].
  - repeat case_decide; (split; intros Hs);
      try (by eexists); try (by auto);
      try (by destruct Hs); try (destruct Hs as [[[?|?]|?]|[? ?]]; done).
Qed.

(** X3.  The event types for which the decorated configuration has a
    handler are the three of the model when the caller's configuration has
    no [on], and the three of the model together with the types that the
    caller's [on] declares when it has one; [<key>.SUBMIT] has a handler
    only if the caller's [on] gave one, and then it is the caller's. *)
Theorem createState_handled_types node :
  ∃ handlers,
    xstate.on (createState (createFormModel key config) node) = Some handlers ∧
    (xstate.on node = None →
     dom handlers = {[ key +:+ ".CHANGE"; key +:+ ".BLUR"; key +:+ ".FOCUS" ]} ∧
     handlers !! (key +:+ ".SUBMIT") = None) ∧
    (∀ callerOn,
       xstate.on node = Some callerOn →
       dom handlers =
         {[ key +:+ ".CHANGE"; key +:+ ".BLUR"; key +:+ ".FOCUS" ]}
           ∪ dom callerOn ∧
       handlers !! (key +:+ ".SUBMIT") = callerOn !! (key +:+ ".SUBMIT")).
Proof.
  destruct (on_createState key config node) as (handlers & Hon & Hlookup).
  assert (handlers !! (key +:+ ".SUBMIT")
            = handler_of node (key +:+ ".SUBMIT")) as Hsubmit.
  { rewrite Hlookup.
    destruct (handler_of node (key +:+ ".SUBMIT")); [done|].
    repeat case_decide; try done;
      match goal with
      | H : key +:+ _ = key +:+ _ |- _ => by apply (inj (String.app key)) in H
      end. }
  exists handlers. split; [done|]. split.
  - intros Hnone. split.
    + apply set_eq. intros type. rewrite (dom_createState node handlers Hon).
      rewrite (handler_of_no_on _ _ Hnone). split; [|by left].
      intros [?|[? ?]]; done.
    + by rewrite Hsubmit, (handler_of_no_on _ _ Hnone).
  - intros callerOn Hcaller. split.
    + apply set_eq. intros type. rewrite (dom_createState node handlers Hon).
      rewrite (handler_of_on _ _ _ Hcaller), <-elem_of_dom.
      symmetry. apply elem_of_union.
    + by rewrite Hsubmit, (handler_of_on _ _ _ Hcaller).
Qed.

(** The behaviours that the decorated configuration runs for an event type
    for which the caller's configuration has no handler. *)
Lemma handles_createState node a event :
  handler_of node (event_type event) = None →
  handles (createState model node) a event ↔
    (event_type event = key +:+ ".CHANGE" ∧
     a = assignChangeToState (actions key config)) ∨
    (event_type event = key +:+ ".BLUR" ∧
     a = assignBlurToState (actions key config)) ∨
    (event_type event = key +:+ ".FOCUS" ∧
     a = assignFocusToState (actions key config)).
Proof.
  intros Hnone.
  destruct (on_createState key config node) as (handlers & Hon & Hlookup).
  pose proof (CHANGE_not_BLUR key) as Hcb.
  pose proof (CHANGE_not_FOCUS key) as Hcf.
  pose proof (BLUR_not_FOCUS key) as Hbf.
  unfold handles. rewrite (handler_of_on _ _ _ Hon). split.
  - intros (transition & Hsome & Ha). rewrite Hlookup, Hnone in Hsome.
    repeat case_decide; try done; injection Hsome as <-;
      apply list_elem_of_singleton in Ha; injection Ha as ->; auto.
  - intros [[Ht ->] | [[Ht ->] | [Ht ->]]];
      (eexists; split;
         [rewrite Hlookup, Hnone, Ht;
          rewrite ?decide_False by done; rewrite decide_True by done;
          reflexivity
         |apply list_elem_of_here]).
Qed.

(** X4.  The three behaviours are three different action objects, and an
    event of the model's constructors reaches the behaviour of its own
    kind, and no other, when the caller's configuration has no handler for
    any of the model's event types: CHANGE events reach
    [assignChangeToState], BLUR events [assignBlurToState], FOCUS events
    [assignFocusToState], and SUBMIT events reach no behaviour. *)
Theorem events_reach_their_behaviour node :
  (∀ event, built_by model event →
     handler_of node (event_type event) = None) →
  (assignChangeToState (actions key config)
     ≠ assignBlurToState (actions key config) ∧
   assignChangeToState (actions key config)
     ≠ assignFocusToState (actions key config) ∧
   assignBlurToState (actions key config)
     ≠ assignFocusToState (actions key config)) ∧
  ∀ a,
    (∀ name value,
       handles (createState model node) a (change (events model) name value)
       ↔ a = assignChangeToState (actions key config)) ∧
    (∀ name value,
       handles (createState model node) a (blur (events model) name value)
       ↔ a = assignBlurToState (actions key config)) ∧
    (∀ name,
       handles (createState model node) a (focus (events model) name)
       ↔ a = assignFocusToState (actions key config)) ∧
    (∀ values,
       ¬ handles (createState model node) a (submit (events model) values)).
Proof.
  intros Hcaller.
  split.
  { split; [apply change_blur_distinct|].
    split; [apply change_focus_distinct|apply blur_focus_distinct]. }
  intros a.
  pose proof (CHANGE_not_BLUR key) as Hcb.
  pose proof (CHANGE_not_FOCUS key) as Hcf.
  pose proof (BLUR_not_FOCUS key) as Hbf.
  split; [|split; [|split]].
  - intros name value.
    rewrite handles_createState by (apply Hcaller; left; by eexists _, _).
    cbn [createFormModel events change event_type]. split.
    + intros [[_ ->] | [[Ht _] | [Ht _]]]; done.
    + intros ->. by left.
  - intros name value.
    rewrite handles_createState
      by (apply Hcaller; right; left; by eexists _, _).
    cbn [createFormModel events blur event_type]. split.
    + intros [[Ht _] | [[_ ->] | [Ht _]]]; done.
    + intros ->. right. by left.
  - intros name.
    rewrite handles_createState
      by (apply Hcaller; right; right; left; by eexists).
    cbn [createFormModel events focus event_type]. split.
    + intros [[Ht _] | [[Ht _] | [_ ->]]]; done.
    + intros ->. right. by right.
  - intros values.
    rewrite handles_createState
      by (apply Hcaller; right; right; right; by eexists).
    cbn [createFormModel events submit event_type].
    intros [[Ht _] | [[Ht _] | [Ht _]]];
      by apply (inj (String.app key)) in Ht.
Qed.

End createState_more.

Lemma events_reach_their_behaviour_witness :
  handles (createState loginForm {| xstate.on := None; xstate.rest := tt |})
    (assignChangeToState (actions "loginForm" loginConfig))
    (change (events loginForm) "username" "something") ∧
  ¬ handles (createState loginForm {| xstate.on := None; xstate.rest := tt |})
      (assignBlurToState (actions "loginForm" loginConfig))
      (change (events loginForm) "username" "something").
Proof.
  destruct (events_reach_their_behaviour "loginForm" loginConfig
              {| xstate.on := None; xstate.rest := tt |}
              (λ event _, eq_refl))
    as [(Hdistinct & _ & _) Hreach].
  split.
  - apply (proj1 (Hreach _)). reflexivity.
  - intros Hblur. apply (proj1 (Hreach _)) in Hblur.
    apply Hdistinct. symmetry. exact Hblur.
Defined.

Section createState_twice.
Context {V Rest : Type}.
Implicit Types (node : StateNodeConfig V Rest) (config : FormModelParams V).

(** The decorated configuration is the caller's with a new [on]. *)
Lemma createState_on_eq key1 config1 key2 config2 node1 node2 :
  xstate.rest node1 = xstate.rest node2 →
  xstate.on (createState (createFormModel key1 config1) node1)
    = xstate.on (createState (createFormModel key2 config2) node2) →
  createState (createFormModel key1 config1) node1
    = createState (createFormModel key2 config2) node2.
Proof.
  intros Hrest Hon.
  change (createState (createFormModel key1 config1) node1)
    with {| xstate.rest := xstate.rest node1;
            xstate.on :=
              xstate.on (createState (createFormModel key1 config1) node1) |}.
  change (createState (createFormModel key2 config2) node2)
    with {| xstate.rest := xstate.rest node2;
            xstate.on :=
              xstate.on (createState (createFormModel key2 config2) node2) |}.
  by rewrite Hrest, Hon.
Qed.

(** X5.  Decorating a configuration that a model with the same key has
    decorated changes nothing: the handlers installed first are the
    caller's handlers for the second decoration.  In particular
    [createState] of one model is idempotent. *)
Theorem createState_same_key key config1 config2 node :
  createState (createFormModel key config1)
    (createState (createFormModel key config2) node)
  = createState (createFormModel key config2) node.
Proof.
  set (node2 := createState (createFormModel key config2) node).
  destruct (on_createState key config2 node) as (h2 & Hon2 & Hl2).
  destruct (on_createState key config1 node2) as (h1 & Hon1 & Hl1).
  fold node2 in Hon2.
  assert (createState (createFormModel key config1) node2
            = createState (createFormModel key config2) node) as Heq;
    [|exact Heq].
  apply createState_on_eq; [done|].
  rewrite Hon1. fold node2. rewrite Hon2. f_equal.
  apply map_eq. intros type.
  rewrite Hl1, (handler_of_on _ _ _ Hon2), Hl2.
  destruct (handler_of node type); [done|].
  by repeat case_decide.
Qed.

(** X6.  Decorations by two models with different keys can be applied in
    either order: the result is the same configuration. *)
Theorem createState_commute key1 key2 config1 config2 node :
  key1 ≠ key2 →
  createState (createFormModel key1 config1)
    (createState (createFormModel key2 config2) node)
  = createState (createFormModel key2 config2)
      (createState (createFormModel key1 config1) node).
Proof.
  intros Hkeys.
  set (node1 := createState (createFormModel key1 config1) node).
  set (node2 := createState (createFormModel key2 config2) node).
  destruct (on_createState key1 config1 node) as (h1 & Hon1 & Hl1).
  destruct (on_createState key2 config2 node) as (h2 & Hon2 & Hl2).
  destruct (on_createState key1 config1 node2) as (h12 & Hon12 & Hl12).
  destruct (on_createState key2 config2 node1) as (h21 & Hon21 & Hl21).
  fold node1 in Hon1. fold node2 in Hon2.
  apply createState_on_eq; [done|].
  rewrite Hon12, Hon21. f_equal.
  apply map_eq. intros type.
  rewrite Hl12, Hl21, (handler_of_on _ _ _ Hon1), (handler_of_on _ _ _ Hon2).
  rewrite Hl1, Hl2.
  destruct (handler_of node type); [done|].
  repeat case_decide; try done; exfalso; apply Hkeys;
    match goal with
    | H1 : ?t = key1 +:+ _, H2 : ?t = key2 +:+ _ |- _ =>
        rewrite H1 in H2; apply suffixed_inj in H2 as [? _];
        [done|rewrite !elem_of_cons; auto 6..]
    end.
Qed.

End createState_twice.

Lemma createState_commute_witness :
  createState loginForm
    (createState requiredForm {| xstate.on := None; xstate.rest := tt |})
  = createState requiredForm
      (createState loginForm {| xstate.on := None; xstate.rest := tt |}).
Proof.
  apply (createState_commute "loginForm" "signup" loginConfig requiredConfig).
  discriminate.
Defined.

(** ** More on the behaviours *)

Section behaviour_more.
Context {V : Type}.
Variables (key : string) (config : FormModelParams V).
Implicit Types (context : FormContext V) (state previous next : InitialState V).
Implicit Types (event : Event V) (a : AssignAction V).

Local Abbreviation model := (createFormModel key config).
Local Abbreviation assignFocus := (assignFocusToState (actions key config)).

Lemma behave_write a state event name value :
  writes_value key config a →
  event_name event = Some name →
  event_value event = Some value →
  behave key a state event =
    Some {| values := <[name := value]> (values state);
            errors := validate_or_empty config (<[name := value]> (values state));
            touched := touched state |}.
Proof.
  intros Ha Hname Hvalue. unfold behave.
  assert ((({[ key := state ]} : FormContext V) !! key) = Some state) as Hkey
    by apply lookup_singleton_eq.
  destruct Ha as [-> | ->].
  - rewrite (assignChangeToState_eq key config _ _ _ _ _ Hkey Hname Hvalue).
    cbn. apply lookup_singleton_eq.
  - rewrite (assignBlurToState_eq key config _ _ _ _ _ Hkey Hname Hvalue).
    cbn. apply lookup_singleton_eq.
Qed.

Lemma behave_focus state event name :
  event_name event = Some name →
  behave key assignFocus state event =
    Some {| values := values state;
            errors := errors state;
            touched := <[name := true]> (touched state) |}.
Proof.
  intros Hname. unfold behave.
  assert ((({[ key := state ]} : FormContext V) !! key) = Some state) as Hkey
    by apply lookup_singleton_eq.
  rewrite (assignFocusToState_eq key config _ _ _ _ Hkey Hname).
  cbn. apply lookup_singleton_eq.
Qed.

Lemma behave_focus_nameless state event :
  event_name event = None → behave key assignFocus state event = None.
Proof.
  intros Hname. unfold behave. cbn. rewrite lookup_singleton_eq. cbn.
  by rewrite Hname.
Qed.

(** X7.  A behaviour reads nothing of the host context but the slice under
    [key] and writes nothing but that slice: two contexts with the same
    slice give the same result, and the partial context that a behaviour
    returns has the one property [key]. *)
Theorem behaviour_is_local a event :
  any_behaviour key config a event →
  (∀ context1 context2,
     context1 !! key = context2 !! key →
     xstate.assignment a context1 event = xstate.assignment a context2 event) ∧
  (∀ context partial,
     xstate.assignment a context event = Some partial →
     dom partial = {[ key ]}) ∧
  (∀ context state,
     context !! key = Some state →
     xstate.assignment a context event ≫= (λ partial, partial !! key)
       = behave key a state event).
Proof.
  intros Ha. split; [|split].
  - intros context1 context2 Hsame.
    destruct Ha as [-> | [-> | ->]]; cbn; by rewrite Hsame.
  - intros context partial Hrun.
    destruct Ha as [-> | [-> | ->]]; cbn in Hrun;
      destruct (context !! key) as [state|]; try done; cbn in Hrun;
      destruct (event_name event) as [name|]; try done; cbn in Hrun;
      try (destruct (event_value event) as [value|]; try done; cbn in Hrun);
      injection Hrun as <-; apply dom_singleton_L.
  - intros context state Hkey. unfold behave.
    destruct Ha as [-> | [-> | ->]]; cbn;
      by rewrite Hkey, lookup_singleton_eq.
Qed.

(** X8.  A new form is pristine: in every context that holds the initial
    state under [key], [getIsDirty] is false and [getIsPristine] is true. *)
Theorem initially_pristine context :
  context !! key = Some (initialContext (createFormModel key config)) →
  getIsDirty (selectors (createFormModel key config)) context = Some false ∧
  getIsPristine (selectors (createFormModel key config)) context = Some true.
Proof.
  intros Hkey.
  rewrite (getIsDirty_lookup key config _ _ Hkey),
    (getIsPristine_lookup key config _ _ Hkey).
  destruct (some Boolean (Object_values (touched (initialContext model))))
    eqn:Hdirty; [|done].
  apply some_touched in Hdirty as [name Hname]. cbn in Hname.
  by apply toInitialBooleanMap_false in Hname.
Qed.

(** X9.  CHANGE and BLUR never change what [getIsDirty] and
    [getIsPristine] answer. *)
Theorem write_keeps_dirty a previous event next context context' :
  writes_value key config a →
  behave key a previous event = Some next →
  context !! key = Some previous →
  context' !! key = Some next →
  getIsDirty (selectors model) context' = getIsDirty (selectors model) context ∧
  getIsPristine (selectors model) context'
    = getIsPristine (selectors model) context.
Proof.
  intros Ha Hrun Hkey Hkey'.
  assert (touched next = touched previous) as Htouched.
  { unfold behave in Hrun.
    destruct (xstate.assignment a {[ key := previous ]} event)
      as [partial|] eqn:Hpartial; [|done].
    destruct (writes_value_step key config a {[ key := previous ]} previous
                event partial next)
      as (name & value & _ & _ & ->);
      [done|apply lookup_singleton_eq|done..]. }
  rewrite (getIsDirty_lookup key config _ _ Hkey),
    (getIsDirty_lookup key config _ _ Hkey'),
    (getIsPristine_lookup key config _ _ Hkey),
    (getIsPristine_lookup key config _ _ Hkey').
  by rewrite Htouched.
Qed.

(** X10.  FOCUS never changes what [getIsValid] answers. *)
Theorem focus_keeps_valid previous event next context context' :
  behave key assignFocus previous event = Some next →
  context !! key = Some previous →
  context' !! key = Some next →
  getIsValid (selectors model) context' = getIsValid (selectors model) context.
Proof.
  intros Hrun Hkey Hkey'.
  assert (errors next = errors previous) as Herrors.
  { unfold behave in Hrun.
    destruct (xstate.assignment assignFocus {[ key := previous ]} event)
      as [partial|] eqn:Hpartial; [|done].
    destruct (focus_step key config {[ key := previous ]} previous event
                partial next)
      as (name & _ & ->); [apply lookup_singleton_eq|done..]. }
  rewrite (getIsValid_lookup key config _ _ Hkey),
    (getIsValid_lookup key config _ _ Hkey').
  by rewrite Herrors.
Qed.

(** X11.  FOCUS is idempotent: a second FOCUS with the same event changes
    nothing. *)
Theorem focus_idempotent state event :
  behave key assignFocus state event
    ≫= (λ next, behave key assignFocus next event)
  = behave key assignFocus state event.
Proof.
  destruct (event_name event) as [name|] eqn:Hname.
  - rewrite (behave_focus state event name) by done. cbn [mbind option_bind].
    rewrite (behave_focus _ event name) by done.
    cbn [values errors touched]. by rewrite insert_insert_eq.
  - by rewrite behave_focus_nameless.
Qed.

(** X12.  The last write wins: after a CHANGE or BLUR of a field, a CHANGE
    or BLUR of the same field gives the state it would have given without
    the first one. *)
Theorem last_write_wins a1 a2 state type1 type2 f v1 v2 :
  writes_value key config a1 →
  writes_value key config a2 →
  behave key a1 state (NameValueEvent type1 f v1)
    ≫= (λ next, behave key a2 next (NameValueEvent type2 f v2))
  = behave key a2 state (NameValueEvent type2 f v2).
Proof.
  intros Ha1 Ha2.
  rewrite (behave_write a1 state _ f v1) by done. cbn [mbind option_bind].
  rewrite !(behave_write a2 _ _ f v2) by done.
  cbn [values errors touched]. by rewrite insert_insert_eq.
Qed.

(** X13.  Writes to two different fields that the form state has commute.
    (Both fields have a value in [values], so either order hands the
    validator an object with the same properties in the same order.) *)
Theorem writes_commute a1 a2 state type1 type2 f g v w :
  writes_value key config a1 →
  writes_value key config a2 →
  f ≠ g →
  is_Some (values state !! f) →
  is_Some (values state !! g) →
  behave key a1 state (NameValueEvent type1 f v)
    ≫= (λ next, behave key a2 next (NameValueEvent type2 g w))
  = behave key a2 state (NameValueEvent type2 g w)
      ≫= (λ next, behave key a1 next (NameValueEvent type1 f v)).
Proof.
  intros Ha1 Ha2 Hfg _ _.
  rewrite (behave_write a1 state _ f v), (behave_write a2 state _ g w) by done.
  cbn [mbind option_bind].
  rewrite (behave_write a2 _ _ g w), (behave_write a1 _ _ f v) by done.
  cbn [values errors touched]. by rewrite (insert_insert_ne _ g f) by done.
Qed.

(** X14.  FOCUS commutes with CHANGE and BLUR, of the same field or of
    another. *)
Theorem focus_write_commute a state type1 type2 f g w :
  writes_value key config a →
  behave key assignFocus state (NameEvent type1 f)
    ≫= (λ next, behave key a next (NameValueEvent type2 g w))
  = behave key a state (NameValueEvent type2 g w)
      ≫= (λ next, behave key assignFocus next (NameEvent type1 f)).
Proof.
  intros Ha.
  rewrite (behave_focus state _ f), (behave_write a state _ g w) by done.
  cbn [mbind option_bind].
  by rewrite (behave_write a _ _ g w), (behave_focus _ _ f) by done.
Qed.

End behaviour_more.

(** ** More invariants *)

Section invariants_more.
Context {V : Type}.
Variables (key : string) (config : FormModelParams V).
Implicit Types (context : FormContext V) (state previous next : InitialState V).
Implicit Types (event : Event V) (a : AssignAction V).

Local Abbreviation model := (createFormModel key config).

(** One application of any of the three behaviours either writes a value
    and keeps [touched], or marks a field as touched and keeps the rest. *)
Lemma any_behaviour_step a context state event partial state' :
  any_behaviour key config a event →
  context !! key = Some state →
  xstate.assignment a context event = Some partial →
  partial !! key = Some state' →
  (∃ name value,
     state' = {| values := <[name := value]> (values state);
                 errors := validate_or_empty config
                             (<[name := value]> (values state));
                 touched := touched state |}) ∨
  (∃ name,
     state' = {| values := values state;
                 errors := errors state;
                 touched := <[name := true]> (touched state) |}).
Proof.
  intros Ha Hkey Hrun Hpartial.
  destruct Ha as [Ha | [Ha | ->]].
  - left.
    destruct (writes_value_step key config a context state event partial state')
      as (name & value & _ & _ & ->); [by left|done..|by eauto].
  - left.
    destruct (writes_value_step key config a context state event partial state')
      as (name & value & _ & _ & ->); [by right|done..|by eauto].
  - right.
    destruct (focus_step key config context state event partial state')
      as (name & _ & ->); [done..|by eauto].
Qed.

(** X15.  A field that was touched stays touched, whatever CHANGE, BLUR and
    FOCUS follow: an entry of [touched] that is true remains true, and a
    form that is dirty remains dirty. *)
Theorem touched_stays state state' :
  evolves key config state state' →
  (∀ name, touched state !! name = Some true →
           touched state' !! name = Some true) ∧
  (∀ context context',
     context !! key = Some state →
     context' !! key = Some state' →
     getIsDirty (selectors model) context = Some true →
     getIsDirty (selectors model) context' = Some true).
Proof.
  intros Hevolves.
  assert (∀ name, touched state !! name = Some true →
                  touched state' !! name = Some true) as Hstays.
  { induction Hevolves
      as [|state state' context a event partial state'' _ IH Hkey Ha Hrun Hpartial];
      [done|].
    intros name Hname. specialize (IH name Hname).
    destruct (any_behaviour_step a context state' event partial state''
                Ha Hkey Hrun Hpartial)
      as [(name' & value & ->) | (name' & ->)]; [done|]. cbn.
    destruct (decide (name' = name)) as [->|Hne].
    - apply lookup_insert_eq.
    - by rewrite lookup_insert_ne. }
  split; [done|].
  intros context context' Hkey Hkey'.
  rewrite (getIsDirty_lookup key config _ _ Hkey),
    (getIsDirty_lookup key config _ _ Hkey').
  intros [= Hdirty]. f_equal.
  apply some_touched in Hdirty as [name Hname].
  apply some_touched. exists name. by apply Hstays.
Qed.

(** X16.  No field is ever removed: along CHANGE, BLUR and FOCUS, on any
    events, the fields of [values] and the fields of [touched] only
    grow. *)
Theorem fields_never_removed state state' :
  evolves key config state state' →
  dom (values state) ⊆ dom (values state') ∧
  dom (touched state) ⊆ dom (touched state').
Proof.
  induction 1
    as [|state state' context a event partial state'' _ IH Hkey Ha Hrun Hpartial];
    [done|].
  destruct IH as [IHvalues IHtouched].
  destruct (any_behaviour_step a context state' event partial state''
              Ha Hkey Hrun Hpartial)
    as [(name & value & ->) | (name & ->)]; cbn; split; try done.
  - rewrite dom_insert_L. etrans; [done|]. apply union_subseteq_r.
  - rewrite dom_insert_L. etrans; [done|]. apply union_subseteq_r.
Qed.

(** In a reachable state [errors] is up to date (the invariant of C6,
    by the induction that the further properties share). *)
Lemma reachable_errors state :
  reachable key config (any_behaviour key config) state →
  errors state = validate_or_empty config (values state).
Proof.
  induction 1
    as [|state context a event partial state' _ IH Hkey Ha Hrun Hpartial];
    [done|].
  by destruct (any_behaviour_step a context state event partial state'
                 Ha Hkey Hrun Hpartial)
    as [(name & value & ->) | (name & ->)].
Qed.

(** X17.  After any sequence of CHANGE, BLUR and FOCUS, [getIsValid] is the
    validator's verdict on the current [values]: it is true exactly when
    there is no validator, or the validator returns nothing, or it returns
    a mapping without entries. *)
Theorem valid_iff_validator_accepts state context :
  reachable key config (any_behaviour key config) state →
  context !! key = Some state →
  getIsValid (selectors model) context = Some true ↔
    match validate config with
    | Some validate =>
        match validate (values state) with
        | Some errors => errors = ∅
        | None => True
        end
    | None => True
    end.
Proof.
  intros Hreach Hkey.
  rewrite (getIsValid_lookup key config _ _ Hkey), (reachable_errors _ Hreach).
  rewrite validate_or_empty_eq.
  destruct (validate config) as [f|].
  - destruct (f (values state)) as [errors|].
    + split; [intros [= Hvalid]; by apply bool_decide_eq_true in Hvalid|].
      intros ->. by rewrite bool_decide_eq_true_2.
    + by rewrite bool_decide_eq_true_2.
  - by rewrite bool_decide_eq_true_2.
Qed.

(** X18.  Along the events of the model's own constructors for declared
    field names, [values] keeps exactly the fields of [initialValues]. *)
Theorem values_fields_fixed state :
  reachable key config (own_dispatch key config) state →
  dom (values state) = dom (initialValues config).
Proof.
  induction 1
    as [|state context a event partial state' _ IH Hkey Ha Hrun Hpartial];
    [done|].
  destruct (own_dispatch_inv key config a event Ha)
    as (name & Hdeclared & Hname & [Hwrites | ->]).
  - destruct (writes_value_step key config a context state event partial state')
      as (name' & value & Hname' & _ & ->); [done..|].
    assert (name' = name) as -> by congruence.
    cbn. rewrite dom_insert_L, IH.
    apply subseteq_union_1_L. by apply singleton_subseteq_l.
  - by destruct (focus_step key config context state event partial state')
      as (name' & _ & ->).
Qed.

(** X19.  Nothing checks a field name.  CHANGE or BLUR of a field without
    an entry in [touched] gives the field a value and still no entry in
    [touched]; FOCUS of a field without a value gives the field an entry
    in [touched] and still no value. *)
Theorem unknown_field a previous type f v :
  writes_value key config a →
  (f ∉ dom (touched previous) →
   ∃ next, behave key a previous (NameValueEvent type f v) = Some next ∧
     values next !! f = Some v ∧ f ∉ dom (touched next)) ∧
  (f ∉ dom (values previous) →
   ∃ next,
     behave key (assignFocusToState (actions key config)) previous
       (NameEvent type f) = Some next ∧
     touched next !! f = Some true ∧ f ∉ dom (values next)).
Proof.
  intros Ha. split; intros Hunknown; eexists.
  - split; [by apply (behave_write key config a previous _ f v)|].
    cbn. split; [apply lookup_insert_eq|done].
  - split; [by apply (behave_focus key config previous _ f)|].
    cbn. split; [apply lookup_insert_eq|done].
Qed.

(** X20.  The selectors answer exactly in the contexts that hold the slice
    under [key]: without it all three fail, with it all three answer. *)
Theorem selectors_need_the_slice context :
  (context !! key = None →
   getIsValid (selectors (createFormModel key config)) context = None ∧
   getIsDirty (selectors (createFormModel key config)) context = None ∧
   getIsPristine (selectors (createFormModel key config)) context = None) ∧
  (is_Some (context !! key) →
   is_Some (getIsValid (selectors (createFormModel key config)) context) ∧
   is_Some (getIsDirty (selectors (createFormModel key config)) context) ∧
   is_Some (getIsPristine (selectors (createFormModel key config)) context)).
Proof.
  split.
  - intros Hnone. cbn. by rewrite Hnone.
  - intros [state Hkey].
    rewrite (getIsValid_lookup key config _ _ Hkey),
      (getIsDirty_lookup key config _ _ Hkey),
      (getIsPristine_lookup key config _ _ Hkey).
    by repeat split.
Qed.

End invariants_more.

(** ** The further properties at the forms of the test suite *)

Lemma behaviour_is_local_witness :
  xstate.assignment (assignFocusToState (actions "loginForm" loginConfig))
    {[ "loginForm" := initialContext loginForm ]}
    (focus (events loginForm) "username")
  = xstate.assignment (assignFocusToState (actions "loginForm" loginConfig))
      {[ "loginForm" := initialContext loginForm;
         "signup" := initialContext requiredForm ]}
      (focus (events loginForm) "username").
Proof.
  apply (behaviour_is_local "loginForm" loginConfig
           (assignFocusToState (actions "loginForm" loginConfig))
           (focus (events loginForm) "username")).
  - right. right. reflexivity.
  - reflexivity.
Defined.

Lemma initially_pristine_witness :
  getIsDirty (selectors loginForm) {[ "loginForm" := initialContext loginForm ]}
    = Some false ∧
  getIsPristine (selectors loginForm) {[ "loginForm" := initialContext loginForm ]}
    = Some true.
Proof.
  apply (initially_pristine "loginForm" loginConfig
           {[ "loginForm" := initialContext loginForm ]}).
  reflexivity.
Defined.

Lemma write_keeps_dirty_witness :
  getIsDirty (selectors loginForm) {[ "loginForm" := loginForm_named ]}
    = getIsDirty (selectors loginForm) {[ "loginForm" := initialContext loginForm ]} ∧
  getIsPristine (selectors loginForm) {[ "loginForm" := loginForm_named ]}
    = getIsPristine (selectors loginForm)
        {[ "loginForm" := initialContext loginForm ]}.
Proof.
  apply (write_keeps_dirty "loginForm" loginConfig
           (assignChangeToState (actions "loginForm" loginConfig))
           (initialContext loginForm)
           (change (events loginForm) "username" "something")
           loginForm_named).
  - left. reflexivity.
  - reflexivity.
  - reflexivity.
  - reflexivity.
Defined.

Lemma focus_keeps_valid_witness :
  getIsValid (selectors plainForm) {[ "loginForm" := plainForm_focused ]}
    = getIsValid (selectors plainForm) {[ "loginForm" := initialContext plainForm ]}.
Proof.
  apply (focus_keeps_valid "loginForm" plainConfig
           (initialContext plainForm)
           (focus (events plainForm) "username")
           plainForm_focused).
  - reflexivity.
  - reflexivity.
  - reflexivity.
Defined.

Lemma last_write_wins_witness :
  behave "loginForm" (assignChangeToState (actions "loginForm" loginConfig))
    (initialContext loginForm) (NameValueEvent "loginForm.CHANGE" "username" "so")
    ≫= (λ next,
          behave "loginForm" (assignBlurToState (actions "loginForm" loginConfig))
            next (NameValueEvent "loginForm.BLUR" "username" "something"))
  = behave "loginForm" (assignBlurToState (actions "loginForm" loginConfig))
      (initialContext loginForm)
      (NameValueEvent "loginForm.BLUR" "username" "something").
Proof.
  apply (last_write_wins "loginForm" loginConfig).
  - left. reflexivity.
  - right. reflexivity.
Defined.

Lemma writes_commute_witness :
  behave "loginForm" (assignChangeToState (actions "loginForm" loginConfig))
    (initialContext loginForm)
    (NameValueEvent "loginForm.CHANGE" "username" "something")
    ≫= (λ next,
          behave "loginForm" (assignChangeToState (actions "loginForm" loginConfig))
            next (NameValueEvent "loginForm.CHANGE" "password" "pass"))
  = behave "loginForm" (assignChangeToState (actions "loginForm" loginConfig))
      (initialContext loginForm)
      (NameValueEvent "loginForm.CHANGE" "password" "pass")
      ≫= (λ next,
            behave "loginForm" (assignChangeToState (actions "loginForm" loginConfig))
              next (NameValueEvent "loginForm.CHANGE" "username" "something")).
Proof.
  apply (writes_commute "loginForm" loginConfig).
  - left. reflexivity.
  - left. reflexivity.
  - discriminate.
  - eexists. reflexivity.
  - eexists. reflexivity.
Defined.

Lemma focus_write_commute_witness :
  behave "loginForm" (assignFocusToState (actions "loginForm" loginConfig))
    (initialContext loginForm) (NameEvent "loginForm.FOCUS" "username")
    ≫= (λ next,
          behave "loginForm" (assignChangeToState (actions "loginForm" loginConfig))
            next (NameValueEvent "loginForm.CHANGE" "username" "something"))
  = behave "loginForm" (assignChangeToState (actions "loginForm" loginConfig))
      (initialContext loginForm)
      (NameValueEvent "loginForm.CHANGE" "username" "something")
      ≫= (λ next,
            behave "loginForm" (assignFocusToState (actions "loginForm" loginConfig))
              next (NameEvent "loginForm.FOCUS" "username")).
Proof.
  apply (focus_write_commute "loginForm" loginConfig).
  left. reflexivity.
Defined.

(** The form without a validator moves from its initial state to the state
    in which the user name had the focus. *)
Lemma plainForm_evolves :
  evolves "loginForm" plainConfig (initialContext plainForm) plainForm_focused.
Proof.
  eapply (evolves_apply _ _ _ (initialContext plainForm)
            {[ "loginForm" := initialContext plainForm ]}
            (assignFocusToState (actions "loginForm" plainConfig))
            (focus (events plainForm) "username")).
  - apply evolves_refl.
  - reflexivity.
  - right. right. reflexivity.
  - reflexivity.
  - reflexivity.
Defined.

Lemma touched_stays_witness :
  touched plainForm_focused_named !! "username" = Some true.
Proof.
  apply (touched_stays "loginForm" plainConfig plainForm_focused
           plainForm_focused_named).
  - eapply (evolves_apply _ _ _ plainForm_focused
              {[ "loginForm" := plainForm_focused ]}
              (assignChangeToState (actions "loginForm" plainConfig))
              (change (events plainForm) "username" "bob")).
    + apply evolves_refl.
    + reflexivity.
    + left. reflexivity.
    + reflexivity.
    + reflexivity.
  - reflexivity.
Defined.

Lemma fields_never_removed_witness :
  dom (values (initialContext plainForm)) ⊆ dom (values plainForm_focused) ∧
  dom (touched (initialContext plainForm)) ⊆ dom (touched plainForm_focused).
Proof.
  apply (fields_never_removed "loginForm" plainConfig
           (initialContext plainForm) plainForm_focused).
  exact plainForm_evolves.
Defined.

(** The login form reaches the state in which the user name is filled in. *)
Lemma loginForm_reaches_named :
  reachable "loginForm" loginConfig (any_behaviour "loginForm" loginConfig)
    loginForm_named.
Proof.
  eapply (reachable_apply _ _ _ (initialContext loginForm)
            {[ "loginForm" := initialContext loginForm ]}
            (assignChangeToState (actions "loginForm" loginConfig))
            (change (events loginForm) "username" "something")).
  - apply reachable_initial.
  - reflexivity.
  - left. reflexivity.
  - reflexivity.
  - reflexivity.
Defined.

Lemma valid_iff_validator_accepts_witness :
  getIsValid (selectors loginForm) {[ "loginForm" := loginForm_named ]} = Some true ↔
    match validate loginConfig with
    | Some validate =>
        match validate (values loginForm_named) with
        | Some errors => errors = ∅
        | None => True
        end
    | None => True
    end.
Proof.
  apply (valid_iff_validator_accepts "loginForm" loginConfig loginForm_named
           {[ "loginForm" := loginForm_named ]}).
  - exact loginForm_reaches_named.
  - reflexivity.
Defined.

Lemma values_fields_fixed_witness :
  dom (values plainForm_focused) = dom (initialValues plainConfig).
Proof.
  apply (values_fields_fixed "loginForm" plainConfig plainForm_focused).
  eapply (reachable_apply _ _ _ (initialContext plainForm)
            {[ "loginForm" := initialContext plainForm ]}
            (assignFocusToState (actions "loginForm" plainConfig))
            (focus (events plainForm) "username")).
  - apply reachable_initial.
  - reflexivity.
  - split.
    + exists "username". split.
      * apply elem_of_dom. eexists. reflexivity.
      * right. right. reflexivity.
    + eexists. split; [reflexivity|]. apply list_elem_of_here.
  - reflexivity.
  - reflexivity.
Defined.

Lemma unknown_field_witness :
  ∃ next,
    behave "loginForm" (assignChangeToState (actions "loginForm" plainConfig))
      (initialContext plainForm) (NameValueEvent "loginForm.CHANGE" "email" "a@b")
      = Some next ∧
    values next !! "email" = Some "a@b" ∧ "email" ∉ dom (touched next).
Proof.
  assert ("email" ∉ dom (touched (initialContext plainForm))) as Hunknown.
  { apply not_elem_of_dom. reflexivity. }
  exact (proj1 (unknown_field "loginForm" plainConfig
                  (assignChangeToState (actions "loginForm" plainConfig))
                  (initialContext plainForm) "loginForm.CHANGE" "email" "a@b"
                  (or_introl eq_refl)) Hunknown).
Defined.
